(** * split_msb_lsb: splitting a stream of 16-bit words into two byte files

    A shallow embedding of [split_file_from_stream] from
    [scripts/split_msb_lsb.py] and the properties of its chunked read loop:
    the pairing of bytes, the carried remainder and the odd-byte policy.

    Files are modelled by their contents: the input stream by the bytes not
    yet read, an output file by the bytes written to it so far.  Reads and
    writes are assumed not to raise [IOError].  Of [sys.stderr] the model
    keeps the lines the script prints itself; what the interpreter may add
    on its own (CPython warns when [open] is given [buffering=1] in binary
    mode) is not part of it, so the theorems say which lines of the script
    are printed and do not bound [sys.stderr] as a whole, except where the
    buffer size is fixed. *)

From Stdlib Require Import List ZArith Lia Bool PeanoNat.
From Stdlib.Strings Require Import String Ascii Byte.
From Stdlib Require Import DecimalString Permutation.
Import ListNotations.

Local Open Scope Z_scope.

(** ** Python primitives used by the script *)

Module Py.

Definition bytes := list byte.

(** [len(b)] *)
Definition len (b : bytes) : Z := Z.of_nat (List.length b).

(** [b[:n]], for the non-negative [n] the script uses. *)
Definition slice_to (b : bytes) (n : Z) : bytes := firstn (Z.to_nat n) b.

(** [b[n:]], for the non-negative [n] the script uses. *)
Definition slice_from (b : bytes) (n : Z) : bytes := skipn (Z.to_nat n) b.

(** [b[::2]]: the elements at offsets 0, 2, 4, ... *)
Fixpoint stride2 (b : bytes) : bytes :=
  match b with
  | [] => []
  | x :: b' => x :: match b' with
                    | [] => []
                    | _ :: b'' => stride2 b''
                    end
  end.

(** [b[1::2]]: the elements at offsets 1, 3, 5, ... *)
Definition stride2_from1 (b : bytes) : bytes := stride2 (tl b).

(** [b[0]] as the integer Python yields when indexing a bytes object. *)
Definition int_of_byte (x : byte) : Z := Z.of_N (Byte.to_N x).

(** [f.read(size)] on a stream whose unread contents are [f], as a buffered
    file and [io.BytesIO] do it: the bytes returned and the contents left.
    A negative size reads to the end of the stream, size 0 returns
    nothing. *)
Definition read (size : Z) (f : bytes) : bytes * bytes :=
  if size <? 0 then (f, [])
  else (firstn (Z.to_nat size) f, skipn (Z.to_nat size) f).

Definition hex_digit (n : Z) : ascii :=
  nth (Z.to_nat n)
      ["0"; "1"; "2"; "3"; "4"; "5"; "6"; "7";
       "8"; "9"; "a"; "b"; "c"; "d"; "e"; "f"]%char "?"%char.

(** [f"{v:02x}"] for a byte value [0 <= v < 256]. *)
Definition format_02x (v : Z) : string :=
  String (hex_digit (v / 16)) (String (hex_digit (v mod 16)) EmptyString).

End Py.

Import Py.

(** ** The function *)

(** The local variables of [split_file_from_stream] that live across loop
    iterations, together with the three files. *)
Record Vars := mkVars {
  word_file : bytes;       (* the part of the input not yet read *)
  lo_byte_file : bytes;    (* contents written to the lower file *)
  up_byte_file : bytes;    (* contents written to the upper file *)
  bytes_written : Z;
  remainder : bytes
}.

(** State on entry to the [while True] loop. *)
Definition init (input : bytes) : Vars :=
  mkVars input [] [] 0 [].

(** One pass through the body of the loop; [None] is the [break]. *)
Definition iteration (big_endian : bool) (buffer_size : Z) (s : Vars)
  : option Vars :=
  let '(read_data, rest) := read buffer_size (word_file s) in
  match read_data with
  | [] => None
  | _ :: _ =>
      let chunk := remainder s ++ read_data in
      let chunk_len := len chunk in
      let word_pairs := chunk_len / 2 in
      if 0 <? word_pairs then
        let data := slice_to chunk (word_pairs * 2) in
        let '(lo_bytes, up_bytes) :=
          if big_endian
          then (stride2_from1 data, stride2 data)
          else (stride2 data, stride2_from1 data) in
        Some (mkVars rest
                     (lo_byte_file s ++ lo_bytes)
                     (up_byte_file s ++ up_bytes)
                     (bytes_written s + word_pairs)
                     (slice_from chunk (word_pairs * 2)))
      else
        Some (mkVars rest (lo_byte_file s) (up_byte_file s)
                     (bytes_written s) chunk)
  end.

(** The loop, run for at most [fuel] passes; [None] when the fuel is used up
    before the [break]. *)
Fixpoint while_true (fuel : nat) (big_endian : bool) (buffer_size : Z)
  (s : Vars) : option Vars :=
  match fuel with
  | O => None
  | S fuel' =>
      match iteration big_endian buffer_size s with
      | None => Some s
      | Some s' => while_true fuel' big_endian buffer_size s'
      end
  end.

(** How a call ends: a returned tuple, or [sys.exit(code)]. *)
Inductive Result :=
| Returned (bytes_written : Z) (had_odd_byte : bool) (odd_byte_value : Z)
| SysExit (code : Z).

(** What a call leaves behind: the two files (closed by the [with] block on
    every path), the lines the function prints to [sys.stderr], and the
    result. *)
Record Outcome := mkOutcome {
  lower : bytes;
  upper : bytes;
  stderr : list string;
  result : Result
}.

(** The [return] statement at the end of the function. *)
Definition return_tuple (bytes_written odd_byte_value : Z) : Result :=
  Returned bytes_written (0 <=? odd_byte_value)
           (if 0 <=? odd_byte_value then odd_byte_value else -1).

(** The code after the loop: [if remainder: ...] and the [return]. *)
Definition handle_remainder (odd_byte_action : string) (s : Vars) : Outcome :=
  match remainder s with
  | [] =>
      mkOutcome (lo_byte_file s) (up_byte_file s) []
                (return_tuple (bytes_written s) (-1))
  | b :: _ =>
      let odd_byte_value := int_of_byte b in
      if (odd_byte_action =? "error")%string then
        mkOutcome (lo_byte_file s) (up_byte_file s)
          [("Error: File has odd number of bytes. Last byte: 0x"
              ++ format_02x odd_byte_value)%string;
           "Use --odd-byte to specify handling (skip, lower, upper)"%string]
          (SysExit 1)
      else if (odd_byte_action =? "skip")%string then
        mkOutcome (lo_byte_file s) (up_byte_file s)
          [("Warning: File has odd number of bytes. Last byte 0x"
              ++ format_02x odd_byte_value ++ " will be skipped.")%string]
          (return_tuple (bytes_written s) (-1))
      else if (odd_byte_action =? "lower")%string then
        mkOutcome (lo_byte_file s ++ remainder s) (up_byte_file s)
          [("Info: File has odd number of bytes. Last byte 0x"
              ++ format_02x odd_byte_value
              ++ " will be added to lower file.")%string]
          (return_tuple (bytes_written s) odd_byte_value)
      else if (odd_byte_action =? "upper")%string then
        mkOutcome (lo_byte_file s) (up_byte_file s ++ remainder s)
          [("Info: File has odd number of bytes. Last byte 0x"
              ++ format_02x odd_byte_value
              ++ " will be added to upper file.")%string]
          (return_tuple (bytes_written s) odd_byte_value)
      else
        mkOutcome (lo_byte_file s) (up_byte_file s) []
                  (return_tuple (bytes_written s) odd_byte_value)
  end.

(** [split_file_from_stream] with the loop bounded by [fuel]. *)
Definition split_file_from_stream_fuel (fuel : nat) (input : bytes)
  (big_endian : bool) (odd_byte_action : string) (buffer_size : Z)
  : option Outcome :=
  option_map (handle_remainder odd_byte_action)
             (while_true fuel big_endian buffer_size (init input)).

(** [split_file_from_stream]: every pass that does not [break] has read at
    least one byte, so one pass more than the input has bytes is enough
    ([while_true_final] below). *)
Definition split_file_from_stream (input : bytes) (big_endian : bool)
  (odd_byte_action : string) (buffer_size : Z) : option Outcome :=
  split_file_from_stream_fuel (S (List.length input)) input big_endian
                              odd_byte_action buffer_size.

(** ** What the two files should hold *)

(** The longest prefix of the input made of whole 2-byte words, and what
    follows it (nothing, or the single odd byte). *)
Definition even_prefix (input : bytes) : bytes :=
  firstn (2 * (List.length input / 2))%nat input.

Definition trailing (input : bytes) : bytes :=
  skipn (2 * (List.length input / 2))%nat input.

(** The bytes of [data] that go to the lower and to the upper file. *)
Definition lo_of (big_endian : bool) (data : bytes) : bytes :=
  if big_endian then stride2_from1 data else stride2 data.

Definition up_of (big_endian : bool) (data : bytes) : bytes :=
  if big_endian then stride2 data else stride2_from1 data.

(** Rebuilding a word stream from the two files: word [i] is made of byte
    [i] of each file, the upper byte first in big-endian order.  Stops at
    the end of the shorter file. *)
Fixpoint zip_words (first second : bytes) : bytes :=
  match first, second with
  | x :: first', y :: second' => x :: y :: zip_words first' second'
  | _, _ => []
  end.

Definition interleave (big_endian : bool) (lo up : bytes) : bytes :=
  if big_endian then zip_words up lo else zip_words lo up.

(** The state in which the loop ends on [input]. *)
Definition final (big_endian : bool) (input : bytes) : Vars :=
  mkVars [] (lo_of big_endian (even_prefix input))
            (up_of big_endian (even_prefix input))
            (Z.of_nat (List.length input / 2))
            (trailing input).

(** The loop invariant: the bytes read so far, [consumed], have been paired
    up from the start of the input; the whole pairs are in the two files and
    the byte left over, if any, is in [remainder]. *)
Definition Inv (big_endian : bool) (input : bytes) (s : Vars) : Prop :=
  exists consumed,
    input = consumed ++ word_file s
    /\ lo_byte_file s = lo_of big_endian (even_prefix consumed)
    /\ up_byte_file s = up_of big_endian (even_prefix consumed)
    /\ bytes_written s = Z.of_nat (List.length consumed / 2)
    /\ remainder s = trailing consumed.

(** The states at the loop boundary: on entry, and after each pass. *)
Inductive boundary (big_endian : bool) (buffer_size : Z) (input : bytes)
  : Vars -> Prop :=
| boundary_entry : boundary big_endian buffer_size input (init input)
| boundary_pass s s' :
    boundary big_endian buffer_size input s ->
    iteration big_endian buffer_size s = Some s' ->
    boundary big_endian buffer_size input s'.

(** The file that receives the bytes at even offsets of the input, and the
    one that receives those at odd offsets. *)
Definition even_file (big_endian : bool) (o : Outcome) : bytes :=
  if big_endian then upper o else lower o.

Definition odd_file (big_endian : bool) (o : Outcome) : bytes :=
  if big_endian then lower o else upper o.

(** The action with the roles of the two files exchanged. *)
Definition swap_action (odd_byte_action : string) : string :=
  if (odd_byte_action =? "lower")%string then "upper"%string
  else if (odd_byte_action =? "upper")%string then "lower"%string
  else odd_byte_action.

(** The byte the function leaves out of both files: the odd byte of the
    input, unless the action writes it. *)
Definition dropped (odd_byte_action : string) (input : bytes) : bytes :=
  if ((odd_byte_action =? "lower") || (odd_byte_action =? "upper"))%string
  then [] else trailing input.

(** ** The rest of the script *)

(** A line of output: printed to [sys.stdout], printed to [sys.stderr], or
    the prompt of [input]. *)
Inductive Line :=
| Out (text : string)
| Err (text : string)
| Prompt (text : string).

(** How a piece of the script ends: with a value, or in [sys.exit(code)]. *)
Inductive Ans (A : Type) :=
| Done (value : A)
| Exit (code : Z).

Arguments Done {A} value.
Arguments Exit {A} code.

(** A piece of the script: the lines it prints, in order, and how it
    ends. *)
Definition Script (A : Type) : Type := list Line * Ans A.

Definition ret {A : Type} (a : A) : Script A := ([], Done a).

Definition bind {A B : Type} (m : Script A) (k : A -> Script B) : Script B :=
  match m with
  | (l, Done a) => let '(l', r) := k a in (l ++ l', r)
  | (l, Exit c) => (l, Exit c)
  end.

Notation "x <- m ;; k" := (bind m (fun x => k))
  (at level 61, m at next level, right associativity).
Notation "m ;; k" := (bind m (fun _ => k))
  (at level 61, right associativity).

(** [print(text, file=sys.stderr)] *)
Definition print_err (text : string) : Script unit := ([Err text], Done tt).

(** [sys.exit(code)] *)
Definition sys_exit {A : Type} (code : Z) : Script A := ([], Exit code).

(** [f"{n}"] for an integer. *)
Definition str_int (n : Z) : string := NilZero.string_of_int (Z.to_int n).

(** [c.lower()] for a one-character string of ASCII. *)
Definition lower_char (c : ascii) : ascii :=
  if (("A" <=? c) && (c <=? "Z"))%char
  then ascii_of_nat (nat_of_ascii c + 32) else c.

(** The value of a hexadecimal digit, for reading [format_02x] back. *)
Definition hex_value (c : ascii) : Z :=
  let n := Z.of_nat (nat_of_ascii c) in
  if (("0" <=? c) && (c <=? "9"))%char then n - 48
  else if (("a" <=? c) && (c <=? "f"))%char then n - 87
  else -1.

Definition ALL_ARCHIVE_EXTENSIONS : list string :=
  [".7z"; ".zip"; ".rar"]%string.

(** [check_input_file], given what [filepath.exists()], [filepath.is_file()]
    and [filepath.stat().st_size] answer. *)
Definition check_input_file (filepath : string) (exists_ is_file : bool)
  (st_size : Z) : Script unit :=
  if negb exists_ then
    print_err ("Error: File '" ++ filepath ++ "' does not exist!") ;;
    sys_exit 1
  else if negb is_file then
    print_err ("Error: '" ++ filepath ++ "' is not a regular file!") ;;
    sys_exit 1
  else if st_size =? 0 then
    print_err ("Warning: File '" ++ filepath ++ "' is empty!")
  else ret tt.

(** [check_output_files], given whether each output file exists, whether
    [sys.stdin.isatty()], and [response], the value of
    [input("Overwrite? [Y/n] ").strip()], or [None] when Ctrl-C is pressed
    at the prompt.  The end of input at the prompt (Ctrl-D), on which
    [input] raises [EOFError] that the function does not catch, has no
    case here. *)
Definition check_output_files (lo_file up_file : string)
  (lo_exists up_exists : bool) (force : bool) (isatty : bool)
  (response : option string) : Script bool :=
  if lo_exists || up_exists then
    if force then ret true
    else
      let existing :=
        (if lo_exists then [lo_file] else [])
          ++ (if up_exists then [up_file] else []) in
      if negb isatty then
        print_err ("Error: Output file(s) already exist: "
                     ++ String.concat ", " existing) ;;
        print_err "Use --force to overwrite existing files" ;;
        ret false
      else
        print_err ("Warning: Output file(s) already exist: "
                     ++ String.concat ", " existing) ;;
        ([Prompt "Overwrite? [Y/n] "], Done tt) ;;
        match response with
        | None => print_err "" ;; sys_exit 130
        | Some EmptyString => ret true
        | Some (String c _) =>
            if negb (lower_char c =? "y")%char then
              print_err "Operation cancelled." ;; ret false
            else ret true
        end
  else ret true.

(** [split_file]: the stream is the contents of the input file.  As for
    the output files, opening it is taken to succeed and to print
    nothing. *)
Definition split_file (contents : bytes) (big_endian : bool)
  (odd_byte_action : string) (buffer_size : Z) : option Outcome :=
  split_file_from_stream contents big_endian odd_byte_action buffer_size.

(** An entry of an archive as [libarchive] yields it. *)
Record Entry := mkEntry {
  name : string;
  isfile : bool;
  get_blocks : list bytes
}.

Definition libarchive_missing {A : Type} : Script A :=
  print_err "Error: libarchive not available - archive support disabled" ;;
  print_err "For archive format support, install libarchive-c: pip install libarchive-c" ;;
  sys_exit 1.

(** [get_first_file_from_archive], given the entries of the archive. *)
Definition get_first_file_from_archive (LIBARCHIVE_AVAILABLE : bool)
  (archive : list Entry) : Script string :=
  if negb LIBARCHIVE_AVAILABLE then libarchive_missing
  else
    let files_in_archive := map name (filter isfile archive) in
    match files_in_archive with
    | [] => print_err "Error: No files found in archive" ;; sys_exit 1
    | first :: _ =>
        (if 1 <? Z.of_nat (List.length files_in_archive) then
           print_err ("Warning: Found "
                        ++ str_int (Z.of_nat (List.length files_in_archive))
                        ++ " files in archive:") ;;
           (map (fun file_name => Err ("  - " ++ file_name))
                files_in_archive, Done tt) ;;
           print_err ("Processing only the first file: " ++ first) ;;
           print_err ""
         else ret tt) ;;
        ret first
    end.

(** The [for entry in archive] loop of [process_archive] and the code after
    it. *)
Fixpoint process_entries (archive : list Entry) (big_endian : bool)
  (odd_byte_action : string) (buffer_size : Z) : Script (option Outcome) :=
  match archive with
  | [] =>
      print_err "Error: Failed to extract file from archive" ;; sys_exit 1
  | entry :: archive' =>
      if isfile entry then
        let data := List.concat (get_blocks entry) in
        ret (split_file_from_stream data big_endian odd_byte_action
                                    buffer_size)
      else process_entries archive' big_endian odd_byte_action buffer_size
  end.

Definition process_archive (LIBARCHIVE_AVAILABLE : bool)
  (archive : list Entry) (big_endian : bool) (odd_byte_action : string)
  (buffer_size : Z) : Script (option Outcome) :=
  if negb LIBARCHIVE_AVAILABLE then libarchive_missing
  else process_entries archive big_endian odd_byte_action buffer_size.

(** The command line as [main] uses it. *)
Record Args := mkArgs {
  arg_big_endian : bool;
  arg_force : bool;
  arg_odd_byte : string
}.

(** What the file system, the archive library and the terminal answer
    during a run of [main]. *)
Record Env := mkEnv {
  libarchive_available : bool;     (* LIBARCHIVE_AVAILABLE *)
  input_path : string;             (* str(input_path) *)
  input_exists : bool;             (* input_path.exists() *)
  input_is_file : bool;            (* input_path.is_file() *)
  input_suffix : string;           (* input_path.suffix.lower() *)
  input_contents : bytes;          (* the bytes of the input file *)
  input_archive : list Entry;      (* the entries libarchive reads from it *)
  output_names : option string -> string * string;
    (* generate_output_names(base_path, args.output) as strings, where
       base_path is the input path (None) or comes from the name of the
       first file of the archive (Some name) *)
  output_exists : string -> bool;  (* exists() of an output file *)
  stdin_isatty : bool;             (* sys.stdin.isatty() *)
  stdin_response : option string   (* see check_output_files *)
}.

(** The buffer size [main] computes. *)
Definition buffer_size_for (is_archive : bool) (file_size : Z) : Z :=
  if is_archive then 512 * 1024
  else if 0 <? file_size then Z.min (512 * 1024) file_size
       else 512 * 1024.

(** The lines [main] prints once the split has returned. *)
Definition summary (args : Args) (lo_file up_file : string)
  (lo_size up_size : Z) (bytes_written : Z) (had_odd_byte : bool)
  (odd_byte_value : Z) : list Line :=
  (if (bytes_written =? 0) && negb had_odd_byte
   then [Err "Warning: No data was written (input file may be empty or too small)."]
   else [])
  ++ [Out "File split successfully:";
      Out ("  Lower bytes: '" ++ lo_file ++ "' ("
             ++ str_int lo_size ++ " bytes)");
      Out ("  Upper bytes: '" ++ up_file ++ "' ("
             ++ str_int up_size ++ " bytes)");
      Out ("  Complete word pairs: " ++ str_int bytes_written)]
  ++ (if had_odd_byte then
        let action_desc :=
          if (arg_odd_byte args =? "skip")%string then "skipped"%string
          else arg_odd_byte args in
        [Out ("  Odd byte (0x" ++ format_02x odd_byte_value ++ "): "
                ++ action_desc)]
      else [])
  ++ [Out ("  Byte order: "
             ++ if arg_big_endian args then "big-endian (Motorola 68000)"
                else "little-endian")].

(** What a run of [main] leaves behind: the lines printed, the two output
    files when the run got as far as opening them, and the code of
    [sys.exit], [None] when [main] returns. *)
Record Run := mkRun {
  lines : list Line;
  files : option (bytes * bytes);
  exit_code : option Z
}.

(** [main] up to the call of the splitter: the checks, the names of the
    output files and the buffer size. *)
Definition main_prepare (args : Args) (env : Env)
  : Script (bool * string * string * Z) :=
  if negb (input_exists env) then
    print_err ("Error: File '" ++ input_path env ++ "' does not exist!") ;;
    sys_exit 1
  else if negb (input_is_file env) then
    print_err ("Error: '" ++ input_path env ++ "' is not a regular file!") ;;
    sys_exit 1
  else
    let file_ext := input_suffix env in
    let is_archive := existsb (String.eqb file_ext) ALL_ARCHIVE_EXTENSIONS in
    names <-
      (if is_archive then
         if negb (libarchive_available env) then
           print_err ("Error: Unsupported file extension: " ++ file_ext) ;;
           print_err "For archive format support, install libarchive-c: pip install libarchive-c" ;;
           sys_exit 1
         else
           first_file_name <-
             get_first_file_from_archive (libarchive_available env)
                                         (input_archive env) ;;
           ret (output_names env (Some first_file_name))
       else
         check_input_file (input_path env) (input_exists env)
                          (input_is_file env) (len (input_contents env)) ;;
         ret (output_names env None)) ;;
    let '(lo_file, up_file) := names in
    ok <- check_output_files lo_file up_file
            (output_exists env lo_file) (output_exists env up_file)
            (arg_force args) (stdin_isatty env) (stdin_response env) ;;
    if negb ok then sys_exit 0
    else
      let buffer_size :=
        buffer_size_for is_archive (len (input_contents env)) in
      ret (is_archive, lo_file, up_file, buffer_size).

(** [main]; [None] when the splitter runs out of fuel.  A run that ends in
    an exception the script does not catch ([EOFError] at the prompt, an
    error of the archive library) has no case here. *)
Definition main (args : Args) (env : Env) : option Run :=
  match main_prepare args env with
  | (l, Exit c) => Some (mkRun l None (Some c))
  | (l, Done (is_archive, lo_file, up_file, buffer_size)) =>
      let call : Script (option Outcome) :=
        if is_archive then
          process_archive (libarchive_available env) (input_archive env)
            (arg_big_endian args) (arg_odd_byte args) buffer_size
        else
          ret (split_file (input_contents env) (arg_big_endian args)
                          (arg_odd_byte args) buffer_size) in
      match call with
      | (l', Exit c) => Some (mkRun (l ++ l') None (Some c))
      | (l', Done None) => None
      | (l', Done (Some o)) =>
          let printed := l ++ l' ++ map Err (stderr o) in
          match result o with
          | SysExit c =>
              Some (mkRun printed (Some (lower o, upper o)) (Some c))
          | Returned bytes_written had_odd_byte odd_byte_value =>
              Some (mkRun
                      (printed
                         ++ summary args lo_file up_file
                              (len (lower o)) (len (upper o))
                              bytes_written had_odd_byte odd_byte_value)
                      (Some (lower o, upper o)) None)
          end
      end
  end.

(** A run on a plain file [rom.bin] with the given contents, away from a
    terminal, where the output files all exist or all do not. *)
Definition plain_env (contents : bytes) (outputs_exist : bool) : Env :=
  mkEnv true "rom.bin" true true ".bin" contents []
        (fun _ => ("rom.lower.bin", "rom.upper.bin")%string)
        (fun _ => outputs_exist) false None.

(** A run on an archive [rom.zip] with the given entries, away from a
    terminal, where no output file exists. *)
Definition archive_env (archive : list Entry) : Env :=
  mkEnv true "rom.zip" true true ".zip" [] archive
        (fun _ => ("rom.lower.bin", "rom.upper.bin")%string)
        (fun _ => false) false None.

(** The error lines of the two [sys.exit(1)] paths of [process_archive]. *)
Definition archive_exit_lines : list string :=
  ["Error: libarchive not available - archive support disabled";
   "Error: Failed to extract file from archive"]%string.

(** A line that is none of them. *)
Definition not_archive_exit (x : Line) : Prop :=
  forall t, In t archive_exit_lines -> x <> Err t.

(** A line that does not go to [sys.stdout]. *)
Definition not_out (x : Line) : Prop :=
  match x with
  | Out _ => False
  | _ => True
  end.

(** ** Lists taken two bytes at a time *)

Section Pairs.

Local Open Scope nat_scope.

Lemma stride2_cons x (l : bytes) : stride2 (x :: l) = x :: stride2 (tl l).
Proof. destruct l; reflexivity. Qed.

Lemma stride2_app k : forall a b : bytes,
  List.length a = 2 * k -> stride2 (a ++ b) = stride2 a ++ stride2 b.
Proof.
  induction k as [|k IH]; intros a b Ha.
  - destruct a; [reflexivity | discriminate].
  - destruct a as [|x [|y a]]; try (simpl in Ha; lia).
    simpl. f_equal. apply IH. simpl in Ha. lia.
Qed.

Lemma stride2_from1_app k : forall a b : bytes,
  List.length a = 2 * k ->
  stride2_from1 (a ++ b) = stride2_from1 a ++ stride2_from1 b.
Proof.
  unfold stride2_from1.
  induction k as [|k IH]; intros a b Ha.
  - destruct a; [reflexivity | discriminate].
  - destruct a as [|x [|y a]]; try (simpl in Ha; lia).
    cbn [tl app]. rewrite !stride2_cons. cbn [app]. f_equal.
    apply (IH a b). simpl in Ha. lia.
Qed.

Lemma lo_of_app be k a b :
  List.length a = 2 * k -> lo_of be (a ++ b) = lo_of be a ++ lo_of be b.
Proof.
  intros Ha.
  destruct be; [apply (stride2_from1_app k) | apply (stride2_app k)];
    assumption.
Qed.

Lemma up_of_app be k a b :
  List.length a = 2 * k -> up_of be (a ++ b) = up_of be a ++ up_of be b.
Proof.
  intros Ha.
  destruct be; [apply (stride2_app k) | apply (stride2_from1_app k)];
    assumption.
Qed.

Lemma stride2_length k : forall a : bytes,
  List.length a = 2 * k -> List.length (stride2 a) = k.
Proof.
  induction k as [|k IH]; intros a Ha.
  - destruct a; [reflexivity | discriminate].
  - destruct a as [|x [|y a]]; try (simpl in Ha; lia).
    simpl. f_equal. apply IH. simpl in Ha. lia.
Qed.

Lemma stride2_from1_length k : forall a : bytes,
  List.length a = 2 * k -> List.length (stride2_from1 a) = k.
Proof.
  unfold stride2_from1.
  induction k as [|k IH]; intros a Ha.
  - destruct a; [reflexivity | discriminate].
  - destruct a as [|x [|y a]]; try (simpl in Ha; lia).
    cbn [tl]. rewrite stride2_cons. simpl. f_equal.
    apply IH. simpl in Ha. lia.
Qed.

Lemma lo_of_length be k a :
  List.length a = 2 * k -> List.length (lo_of be a) = k.
Proof.
  intros Ha.
  destruct be; [apply stride2_from1_length | apply stride2_length];
    assumption.
Qed.

Lemma up_of_length be k a :
  List.length a = 2 * k -> List.length (up_of be a) = k.
Proof.
  intros Ha.
  destruct be; [apply stride2_length | apply stride2_from1_length];
    assumption.
Qed.

Lemma zip_words_stride2 k : forall a : bytes,
  List.length a = 2 * k -> zip_words (stride2 a) (stride2_from1 a) = a.
Proof.
  unfold stride2_from1.
  induction k as [|k IH]; intros a Ha.
  - destruct a; [reflexivity | discriminate].
  - destruct a as [|x [|y a]]; try (simpl in Ha; lia).
    cbn [tl]. rewrite (stride2_cons y a). simpl. do 2 f_equal.
    apply IH. simpl in Ha. lia.
Qed.

Lemma zip_words_app_l : forall a b c : bytes,
  List.length a = List.length b -> zip_words (a ++ c) b = zip_words a b.
Proof.
  induction a as [|x a IH]; intros [|y b] c H; try discriminate.
  - destruct c; reflexivity.
  - simpl. do 2 f_equal. apply IH. simpl in H. lia.
Qed.

Lemma zip_words_app_r : forall a b c : bytes,
  List.length a = List.length b -> zip_words a (b ++ c) = zip_words a b.
Proof.
  induction a as [|x a IH]; intros [|y b] c H; try discriminate.
  - reflexivity.
  - simpl. do 2 f_equal. apply IH. simpl in H. lia.
Qed.

Lemma even_prefix_length (l : bytes) :
  List.length (even_prefix l) = 2 * (List.length l / 2).
Proof.
  unfold even_prefix. rewrite length_firstn.
  pose proof (Nat.Div0.mul_div_le (List.length l) 2). lia.
Qed.

Lemma trailing_length (l : bytes) :
  List.length (trailing l) = List.length l mod 2.
Proof.
  unfold trailing. rewrite length_skipn.
  pose proof (Nat.div_mod_eq (List.length l) 2). lia.
Qed.

Lemma even_prefix_trailing (l : bytes) : even_prefix l ++ trailing l = l.
Proof. apply firstn_skipn. Qed.

Lemma half_app k (a b : bytes) :
  List.length a = 2 * k ->
  List.length (a ++ b) / 2 = k + List.length b / 2.
Proof.
  intros Ha. rewrite length_app, Ha.
  replace (2 * k + List.length b) with (List.length b + k * 2) by lia.
  rewrite Nat.div_add by lia. lia.
Qed.

Lemma even_prefix_app k (a b : bytes) :
  List.length a = 2 * k -> even_prefix (a ++ b) = a ++ even_prefix b.
Proof.
  intros Ha. unfold even_prefix. rewrite (half_app k) by assumption.
  replace (2 * (k + List.length b / 2))
    with (List.length a + 2 * (List.length b / 2)) by lia.
  apply firstn_app_2.
Qed.

Lemma trailing_app k (a b : bytes) :
  List.length a = 2 * k -> trailing (a ++ b) = trailing b.
Proof.
  intros Ha. unfold trailing. rewrite (half_app k) by assumption.
  replace (2 * (k + List.length b / 2))
    with (List.length a + 2 * (List.length b / 2)) by lia.
  rewrite skipn_app, Nat.add_comm, Nat.add_sub.
  rewrite skipn_all2 by lia. reflexivity.
Qed.

End Pairs.

(** ** One pass of the loop *)

Lemma read_app size f d rest : read size f = (d, rest) -> d ++ rest = f.
Proof.
  unfold read. destruct (size <? 0); intros [= <- <-].
  - apply app_nil_r.
  - apply firstn_skipn.
Qed.

Lemma read_empty size : read size [] = ([], []).
Proof.
  unfold read. destruct (size <? 0); [reflexivity|].
  now rewrite firstn_nil, skipn_nil.
Qed.

Lemma read_cons size x f :
  1 <= size -> exists d rest, read size (x :: f) = (x :: d, rest).
Proof.
  intros H. unfold read.
  destruct (Z.ltb_spec size 0) as [?|_]; [lia|].
  destruct (Z.to_nat size) as [|n] eqn:E; [lia|].
  simpl. eauto.
Qed.

(** The slices the script takes, in terms of [even_prefix] and
    [trailing]. *)
Lemma word_pairs_half (chunk : bytes) :
  len chunk / 2 = Z.of_nat (List.length chunk / 2).
Proof. unfold len. now rewrite Nat2Z.inj_div. Qed.

Lemma slice_to_pairs (chunk : bytes) :
  slice_to chunk (len chunk / 2 * 2) = even_prefix chunk.
Proof.
  unfold slice_to, even_prefix. rewrite word_pairs_half. f_equal. lia.
Qed.

Lemma slice_from_pairs (chunk : bytes) :
  slice_from chunk (len chunk / 2 * 2) = trailing chunk.
Proof.
  unfold slice_from, trailing. rewrite word_pairs_half. f_equal. lia.
Qed.

(** A pass that does not [break] has read a non-empty [read_data], has
    written the whole pairs of [chunk = remainder + read_data] and keeps
    what follows them. *)
Lemma iteration_pass be bs s s' :
  iteration be bs s = Some s' ->
  exists x d,
    read bs (word_file s) = (x :: d, word_file s')
    /\ lo_byte_file s' =
         lo_byte_file s ++ lo_of be (even_prefix (remainder s ++ x :: d))
    /\ up_byte_file s' =
         up_byte_file s ++ up_of be (even_prefix (remainder s ++ x :: d))
    /\ bytes_written s' =
         bytes_written s + Z.of_nat (List.length (remainder s ++ x :: d) / 2)
    /\ remainder s' = trailing (remainder s ++ x :: d).
Proof.
  unfold iteration.
  destruct (read bs (word_file s)) as [[|x d] rest] eqn:R; [discriminate|].
  set (chunk := remainder s ++ x :: d).
  rewrite slice_to_pairs, slice_from_pairs.
  destruct (Z.ltb_spec 0 (len chunk / 2)) as [Hp|Hp].
  - intros H. exists x, d.
    rewrite <- word_pairs_half.
    destruct be; injection H as <-; cbn [word_file lo_byte_file up_byte_file bytes_written remainder]; auto 6.
  - intros H. injection H as <-. exists x, d. cbn [word_file lo_byte_file up_byte_file bytes_written remainder].
    rewrite word_pairs_half in Hp.
    assert (E : (List.length chunk / 2 = 0)%nat) by lia.
    subst chunk. unfold even_prefix, trailing. rewrite E.
    cbn [Nat.mul firstn skipn].
    destruct be; cbn; rewrite ?app_nil_r, ?Z.add_0_r; auto 6.
Qed.

(** Each pass that does not [break] leaves fewer bytes unread. *)
Lemma iteration_consumes be bs s s' :
  iteration be bs s = Some s' ->
  (List.length (word_file s') < List.length (word_file s))%nat.
Proof.
  intros H. apply iteration_pass in H as (x & d & R & _).
  apply read_app in R. rewrite <- R. cbn. rewrite length_app. lia.
Qed.

(** The loop [break]s exactly on a zero-length read. *)
Lemma iteration_break be bs s :
  iteration be bs s = None <-> fst (read bs (word_file s)) = [].
Proof.
  unfold iteration.
  destruct (read bs (word_file s)) as [[|x d] rest]; cbn.
  - tauto.
  - destruct (0 <? len (remainder s ++ x :: d) / 2);
      [destruct be|]; split; discriminate.
Qed.

(** With a positive buffer size, a zero-length read means end of input. *)
Lemma iteration_break_eof be bs s :
  1 <= bs -> iteration be bs s = None -> word_file s = [].
Proof.
  intros Hbs H. apply iteration_break in H.
  destruct (word_file s) as [|x f]; [reflexivity|].
  destruct (read_cons bs x f Hbs) as (d & rest & R).
  rewrite R in H. discriminate.
Qed.

Lemma iteration_eof be bs s : word_file s = [] -> iteration be bs s = None.
Proof.
  intros H. apply iteration_break. now rewrite H, read_empty.
Qed.

(** ** The invariant *)

Lemma Inv_init be input : Inv be input (init input).
Proof. exists []. destruct be; cbn; auto 6. Qed.

Lemma Inv_iteration be bs input s s' :
  Inv be input s -> iteration be bs s = Some s' -> Inv be input s'.
Proof.
  intros (c & Hin & Hlo & Hup & Hbw & Hrem) H.
  apply iteration_pass in H as (x & d & R & Hlo' & Hup' & Hbw' & Hrem').
  apply read_app in R.
  pose proof (even_prefix_length c) as Hlen.
  assert (Hc : c ++ x :: d = even_prefix c ++ remainder s ++ x :: d).
  { rewrite Hrem, app_assoc, even_prefix_trailing. reflexivity. }
  exists (c ++ x :: d). rewrite Hc.
  rewrite (even_prefix_app _ _ _ Hlen), (trailing_app _ _ _ Hlen),
    (half_app _ _ _ Hlen), (lo_of_app _ _ _ _ Hlen), (up_of_app _ _ _ _ Hlen).
  rewrite Hlo', Hup', Hbw', Hrem', Hlo, Hup, Hbw.
  repeat split; try reflexivity.
  - rewrite <- Hc, <- app_assoc, R. exact Hin.
  - rewrite Nat2Z.inj_add. reflexivity.
Qed.

Lemma boundary_Inv be bs input s :
  boundary be bs input s -> Inv be input s.
Proof.
  induction 1; eauto using Inv_init, Inv_iteration.
Qed.

(** At the end of the input the invariant pins the state down. *)
Lemma Inv_eof be input s :
  Inv be input s -> word_file s = [] -> s = final be input.
Proof.
  intros (c & Hin & Hlo & Hup & Hbw & Hrem) Heof.
  rewrite Heof, app_nil_r in Hin. subst c.
  destruct s as [f lo up bw r].
  cbn [word_file lo_byte_file up_byte_file bytes_written remainder] in *.
  subst. reflexivity.
Qed.

(** ** The loop *)

(** The loop ends within one pass more than there are unread bytes, in a
    boundary state on which the next read is empty. *)
Lemma while_true_ends be bs input : forall fuel s,
  (List.length (word_file s) < fuel)%nat ->
  boundary be bs input s ->
  exists s', while_true fuel be bs s = Some s'
             /\ boundary be bs input s'
             /\ iteration be bs s' = None.
Proof.
  induction fuel as [|fuel IH]; intros s Hfuel Hb; [lia|].
  cbn. destruct (iteration be bs s) as [s'|] eqn:It.
  - apply IH.
    + apply iteration_consumes in It. lia.
    + eapply boundary_pass; eauto.
  - eauto.
Qed.

Lemma while_true_final be bs input fuel :
  1 <= bs -> (List.length input < fuel)%nat ->
  while_true fuel be bs (init input) = Some (final be input).
Proof.
  intros Hbs Hfuel.
  destruct (while_true_ends be bs input fuel (init input) Hfuel
              (boundary_entry _ _ _)) as (s' & W & Hb & It).
  rewrite W. f_equal.
  apply Inv_eof.
  - eapply boundary_Inv; eauto.
  - eapply iteration_break_eof; eauto.
Qed.

(** The function in closed form, for any positive buffer size. *)
Lemma split_file_from_stream_final input be act bs :
  1 <= bs ->
  split_file_from_stream input be act bs
  = Some (handle_remainder act (final be input)).
Proof.
  intros Hbs. unfold split_file_from_stream, split_file_from_stream_fuel.
  rewrite while_true_final by (assumption || lia). reflexivity.
Qed.

(** ** Reading the two files by offset *)

Section Offsets.

Local Open Scope nat_scope.

Lemma nth_error_stride2 : forall i (a : bytes),
  nth_error (stride2 a) i = nth_error a (2 * i).
Proof.
  induction i as [|i IH]; intros [|x [|y a]]; try reflexivity.
  - cbn. now rewrite !nth_error_nil.
  - replace (2 * S i) with (S (S (2 * i))) by lia.
    cbn [stride2 nth_error]. apply IH.
Qed.

Lemma nth_error_stride2_from1 i (a : bytes) :
  nth_error (stride2_from1 a) i = nth_error a (2 * i + 1).
Proof.
  unfold stride2_from1. rewrite nth_error_stride2.
  destruct a as [|x a]; cbn [tl].
  - now rewrite !nth_error_nil.
  - now rewrite Nat.add_1_r.
Qed.

Lemma nth_error_even_prefix i (input : bytes) :
  i < 2 * (List.length input / 2) ->
  nth_error (even_prefix input) i = nth_error input i.
Proof.
  intros H. unfold even_prefix. rewrite nth_error_firstn.
  apply Nat.ltb_lt in H. now rewrite H.
Qed.

(** An input of even length is all pairs. *)
Lemma trailing_even (input : bytes) :
  Nat.even (List.length input) = true -> trailing input = [].
Proof.
  intros H. apply Nat.even_spec in H as [k Hk].
  apply length_zero_iff_nil. rewrite trailing_length.
  pose proof (Nat.div_mod_eq (List.length input) 2).
  pose proof (Nat.mod_upper_bound (List.length input) 2). lia.
Qed.

(** An input of odd length ends in one byte outside the pairs. *)
Lemma trailing_odd (input : bytes) :
  Nat.odd (List.length input) = true ->
  exists b, trailing input = [b]
            /\ nth_error input (List.length input - 1) = Some b.
Proof.
  intros H. apply Nat.odd_spec in H as [k Hk].
  pose proof (trailing_length input) as Ht.
  pose proof (even_prefix_length input) as Hp.
  pose proof (Nat.div_mod_eq (List.length input) 2).
  pose proof (Nat.mod_upper_bound (List.length input) 2).
  destruct (trailing input) as [|b [|? ?]] eqn:E;
    cbn [List.length] in Ht; try lia.
  exists b. split; [reflexivity|].
  rewrite <- (even_prefix_trailing input) at 1. rewrite E.
  rewrite nth_error_app2 by lia.
  replace (List.length input - 1 - List.length (even_prefix input))
    with 0 by lia.
  reflexivity.
Qed.

End Offsets.

(** ** After the loop *)

Lemma int_of_byte_nonneg b : (0 <=? int_of_byte b) = true.
Proof. apply Z.leb_le. unfold int_of_byte. lia. Qed.

Lemma return_tuple_byte n b :
  return_tuple n (int_of_byte b) = Returned n true (int_of_byte b).
Proof. unfold return_tuple. now rewrite int_of_byte_nonneg. Qed.

(** The lower file gets the odd byte under ['lower'] only, the upper file
    under ['upper'] only, whatever the action string. *)
Lemma handle_remainder_lower act s :
  lower (handle_remainder act s)
  = lo_byte_file s ++ (if (act =? "lower")%string then remainder s else []).
Proof.
  unfold handle_remainder. destruct (remainder s) as [|b r].
  - cbn. destruct (act =? "lower")%string; now rewrite app_nil_r.
  - destruct (String.eqb_spec act "error") as [->|_];
      [cbn; now rewrite app_nil_r|].
    destruct (String.eqb_spec act "skip") as [->|_];
      [cbn; now rewrite app_nil_r|].
    destruct (String.eqb_spec act "lower") as [->|_]; [reflexivity|].
    destruct (act =? "upper")%string; cbn; now rewrite app_nil_r.
Qed.

Lemma handle_remainder_upper act s :
  upper (handle_remainder act s)
  = up_byte_file s ++ (if (act =? "upper")%string then remainder s else []).
Proof.
  unfold handle_remainder. destruct (remainder s) as [|b r].
  - cbn. destruct (act =? "upper")%string; now rewrite app_nil_r.
  - destruct (String.eqb_spec act "error") as [->|_];
      [cbn; now rewrite app_nil_r|].
    destruct (String.eqb_spec act "skip") as [->|_];
      [cbn; now rewrite app_nil_r|].
    destruct (String.eqb_spec act "lower") as [->|_];
      [cbn; now rewrite app_nil_r|].
    destruct (String.eqb_spec act "upper") as [->|_]; [reflexivity|].
    cbn; now rewrite app_nil_r.
Qed.

(** With nothing left over the function returns [(bytes_written, False, -1)]
    and prints nothing. *)
Lemma handle_remainder_none act s :
  remainder s = [] ->
  handle_remainder act s
  = mkOutcome (lo_byte_file s) (up_byte_file s) []
              (Returned (bytes_written s) false (-1)).
Proof. unfold handle_remainder. now intros ->. Qed.

Lemma odd_half n : Nat.odd n = true -> ((n - 1) / 2 = n / 2)%nat.
Proof.
  intros H. apply Nat.odd_spec in H as [k Hk].
  pose proof (Nat.div_mod_eq n 2).
  pose proof (Nat.mod_upper_bound n 2).
  pose proof (Nat.div_mod_eq (n - 1) 2).
  pose proof (Nat.mod_upper_bound (n - 1) 2).
  lia.
Qed.

Lemma final_lower_length be input :
  List.length (lo_byte_file (final be input)) = (List.length input / 2)%nat.
Proof. apply lo_of_length, even_prefix_length. Qed.

Lemma final_upper_length be input :
  List.length (up_byte_file (final be input)) = (List.length input / 2)%nat.
Proof. apply up_of_length, even_prefix_length. Qed.

(** At most one of the two files gets the odd byte. *)
Lemma odd_byte_one_file act (r : bytes) :
  (if (act =? "lower")%string then r else []) = []
  \/ (if (act =? "upper")%string then r else []) = [].
Proof.
  destruct (String.eqb_spec act "lower") as [->|_]; [right|left]; reflexivity.
Qed.

Lemma zip_words_app (a b c d : bytes) :
  List.length a = List.length b -> c = [] \/ d = [] ->
  zip_words (a ++ c) (b ++ d) = zip_words a b.
Proof.
  intros H [->| ->]; rewrite app_nil_r.
  - now apply zip_words_app_r.
  - now apply zip_words_app_l.
Qed.

(** ** Pairing *)

(** C1. Deinterleave correctness: for every input and positive buffer size,
    byte [i] of the file that takes the even offsets (the upper file in
    big-endian mode, the lower file in little-endian mode) is byte [2i] of
    the input, and byte [i] of the other file is byte [2i+1], for every word
    [i] of the even-length prefix of the input; so the bytes keep their
    relative order.  For the input 12 34 AB CD big-endian gives upper
    12 AB and lower 34 CD, little-endian gives lower 12 AB and upper
    34 CD. *)
Theorem C1_deinterleave input be act bs :
  1 <= bs ->
  (exists o,
     split_file_from_stream input be act bs = Some o
     /\ forall i, (i < List.length input / 2)%nat ->
          nth_error (even_file be o) i = nth_error input (2 * i)
          /\ nth_error (odd_file be o) i = nth_error input (2 * i + 1))
  /\ (exists o,
        split_file_from_stream [x12; x34; xab; xcd] true act bs = Some o
        /\ upper o = [x12; xab] /\ lower o = [x34; xcd])
  /\ (exists o,
        split_file_from_stream [x12; x34; xab; xcd] false act bs = Some o
        /\ lower o = [x12; xab] /\ upper o = [x34; xcd]).
Proof.
  intros Hbs. rewrite !split_file_from_stream_final by assumption.
  split; [|split].
  - eexists; split; [reflexivity|]. intros i Hi.
    assert (H2 : (2 * i + 1 < 2 * (List.length input / 2))%nat) by lia.
    unfold even_file, odd_file.
    destruct be; rewrite handle_remainder_lower, handle_remainder_upper;
      rewrite !nth_error_app1
        by (rewrite ?final_lower_length, ?final_upper_length; exact Hi);
      cbn [final lo_byte_file up_byte_file lo_of up_of];
      rewrite nth_error_stride2, nth_error_stride2_from1;
      rewrite !nth_error_even_prefix by lia; auto.
  - eexists; split; [reflexivity|].
    rewrite handle_remainder_none by reflexivity. split; reflexivity.
  - eexists; split; [reflexivity|].
    rewrite handle_remainder_none by reflexivity. split; reflexivity.
Qed.

Lemma C1_deinterleave_witness :
  1 <= 3
  /\ exists o,
       split_file_from_stream [x01; x02; x03; x04; x05] false "upper" 3
       = Some o
       /\ forall i, (i < 5 / 2)%nat ->
            nth_error (even_file false o) i
            = nth_error [x01; x02; x03; x04; x05] (2 * i)
            /\ nth_error (odd_file false o) i
               = nth_error [x01; x02; x03; x04; x05] (2 * i + 1).
Proof.
  split; [lia|].
  apply (C1_deinterleave [x01; x02; x03; x04; x05] false "upper" 3). lia.
Defined.

(** C2. Round trip: for every input, byte order and positive buffer size,
    interleaving the lower and the upper file word by word in that byte
    order gives back the even-length prefix of the input. *)
Theorem C2_round_trip input be act bs :
  1 <= bs ->
  exists o,
    split_file_from_stream input be act bs = Some o
    /\ interleave be (lower o) (upper o) = even_prefix input.
Proof.
  intros Hbs. rewrite split_file_from_stream_final by assumption.
  eexists; split; [reflexivity|].
  rewrite handle_remainder_lower, handle_remainder_upper.
  cbn [final lo_byte_file up_byte_file remainder].
  pose proof (even_prefix_length input) as Hlen.
  pose proof (odd_byte_one_file act (trailing input)) as Hone.
  unfold interleave. destruct be; cbn [lo_of up_of].
  - rewrite zip_words_app; [now apply (zip_words_stride2 _ _ Hlen)| |tauto].
    now rewrite (stride2_length _ _ Hlen), (stride2_from1_length _ _ Hlen).
  - rewrite zip_words_app; [now apply (zip_words_stride2 _ _ Hlen)| |tauto].
    now rewrite (stride2_length _ _ Hlen), (stride2_from1_length _ _ Hlen).
Qed.

Lemma C2_round_trip_witness :
  1 <= 2
  /\ exists o,
       split_file_from_stream [x0a; x0b; x0c; x0d; x0e] true "lower" 2
       = Some o
       /\ interleave true (lower o) (upper o)
          = even_prefix [x0a; x0b; x0c; x0d; x0e].
Proof.
  split; [lia|].
  apply (C2_round_trip [x0a; x0b; x0c; x0d; x0e] true "lower" 2). lia.
Defined.

(** C3. Buffer-size independence: for every input, byte order and odd-byte
    action, the call ends under any two positive buffer sizes, with the
    same lower file, the same upper file and the same result. *)
Theorem C3_buffer_size_independent input be act b1 b2 :
  1 <= b1 -> 1 <= b2 ->
  exists o1 o2,
    split_file_from_stream input be act b1 = Some o1
    /\ split_file_from_stream input be act b2 = Some o2
    /\ lower o1 = lower o2
    /\ upper o1 = upper o2
    /\ result o1 = result o2.
Proof.
  intros H1 H2. rewrite !split_file_from_stream_final by assumption.
  do 2 eexists. repeat split.
Qed.

Lemma C3_buffer_size_independent_witness :
  (1 <= 1 /\ 1 <= 100000)
  /\ exists o1 o2,
       split_file_from_stream [x01; x02; x03; x04; x05] true "upper" 1
       = Some o1
       /\ split_file_from_stream [x01; x02; x03; x04; x05] true "upper"
            100000 = Some o2
       /\ lower o1 = lower o2
       /\ upper o1 = upper o2
       /\ result o1 = result o2.
Proof.
  split; [lia|].
  apply (C3_buffer_size_independent
           [x01; x02; x03; x04; x05] true "upper" 1 100000); lia.
Defined.

(** ** The end of the input *)

(** C4. Even length: for every input of even length L and positive buffer
    size the call returns [(L/2, False, -1)], that is L/2 word pairs and no
    trailing byte, and leaves L/2 bytes in each file; on the empty input
    both files are empty and the count is 0. *)
Theorem C4_even_length input be act bs :
  1 <= bs ->
  Nat.even (List.length input) = true ->
  exists o,
    split_file_from_stream input be act bs = Some o
    /\ result o = Returned (Z.of_nat (List.length input / 2)) false (-1)
    /\ List.length (lower o) = (List.length input / 2)%nat
    /\ List.length (upper o) = (List.length input / 2)%nat
    /\ (input = [] ->
        lower o = [] /\ upper o = [] /\ result o = Returned 0 false (-1)).
Proof.
  intros Hbs Hev. rewrite split_file_from_stream_final by assumption.
  eexists; split; [reflexivity|].
  rewrite handle_remainder_none by (now apply trailing_even).
  cbn [result lower upper].
  repeat split.
  - apply final_lower_length.
  - apply final_upper_length.
  - subst input. now destruct be.
  - subst input. now destruct be.
  - now subst input.
Qed.

Lemma C4_even_length_witness :
  (1 <= 3 /\ Nat.even (List.length [x01; x02; x03; x04]) = true)
  /\ exists o,
       split_file_from_stream [x01; x02; x03; x04] true "error" 3 = Some o
       /\ result o = Returned 2 false (-1).
Proof.
  split; [split; [lia | reflexivity]|].
  destruct (C4_even_length [x01; x02; x03; x04] true "error" 3)
    as (o & Ho & Hr & _); [lia | reflexivity |].
  exists o. split; [exact Ho | exact Hr].
Defined.

(** C5. Error action: for every input of odd length L, with last byte [b],
    and positive buffer size, the call under ['error'] ends in
    [sys.exit(1)] and the error line that carries [b] in hex is among the
    lines on [sys.stderr]; by then every whole pair has been written and
    nothing else: the two files hold the two halves of the even-length
    prefix, (L-1)/2 bytes each. *)
Theorem C5_error_action input be bs :
  1 <= bs ->
  Nat.odd (List.length input) = true ->
  exists o b,
    nth_error input (List.length input - 1) = Some b
    /\ split_file_from_stream input be "error" bs = Some o
    /\ result o = SysExit 1
    /\ In ("Error: File has odd number of bytes. Last byte: 0x"
             ++ format_02x (int_of_byte b))%string (stderr o)
    /\ lower o = lo_of be (even_prefix input)
    /\ upper o = up_of be (even_prefix input)
    /\ List.length (lower o) = ((List.length input - 1) / 2)%nat
    /\ List.length (upper o) = ((List.length input - 1) / 2)%nat.
Proof.
  intros Hbs Hodd. rewrite split_file_from_stream_final by assumption.
  destruct (trailing_odd input Hodd) as (b & Hb & Hlast).
  eexists; exists b. split; [exact Hlast|]. split; [reflexivity|].
  rewrite odd_half by assumption.
  unfold handle_remainder. cbn [final remainder]. rewrite Hb.
  cbn [String.eqb Ascii.eqb Bool.eqb result stderr lower upper
       lo_byte_file up_byte_file].
  repeat split; try (now left).
  - apply final_lower_length.
  - apply final_upper_length.
Qed.

Lemma C5_error_action_witness :
  (1 <= 2 /\ Nat.odd (List.length [x10; x20; x7f]) = true)
  /\ exists o,
       split_file_from_stream [x10; x20; x7f] true "error" 2 = Some o
       /\ result o = SysExit 1
       /\ lower o = [x20] /\ upper o = [x10].
Proof.
  split; [split; [lia | reflexivity]|].
  destruct (C5_error_action [x10; x20; x7f] true 2)
    as (o & b & _ & Ho & Hr & _ & Hlo & Hup & _); [lia | reflexivity |].
  exists o. repeat split; assumption.
Defined.

(** C6. Skip action on the one-byte input 7F: the call returns
    [(0, False, -1)], the very tuple it returns on the empty input; the
    discarded byte shows only in the warning line. *)
Theorem C6_skip_returns_no_odd_byte :
  split_file_from_stream [x7f] true "skip" 65536
  = Some (mkOutcome [] []
            ["Warning: File has odd number of bytes. Last byte 0x7f will be skipped."%string]
            (Returned 0 false (-1)))
  /\ option_map result (split_file_from_stream [x7f] true "skip" 65536)
     = option_map result (split_file_from_stream [] true "skip" 65536).
Proof. split; reflexivity. Qed.

(** What does hold under ['skip'] on an input of odd length L: (L-1)/2
    pairs are reported, each file holds (L-1)/2 bytes, the last byte is in
    neither file and the returned value is [-1]. *)
Lemma skip_action input be bs :
  1 <= bs ->
  Nat.odd (List.length input) = true ->
  exists o,
    split_file_from_stream input be "skip" bs = Some o
    /\ result o
       = Returned (Z.of_nat ((List.length input - 1) / 2)) false (-1)
    /\ lower o = lo_of be (even_prefix input)
    /\ upper o = up_of be (even_prefix input)
    /\ List.length (lower o) = ((List.length input - 1) / 2)%nat
    /\ List.length (upper o) = ((List.length input - 1) / 2)%nat.
Proof.
  intros Hbs Hodd. rewrite split_file_from_stream_final by assumption.
  destruct (trailing_odd input Hodd) as (b & Hb & Hlast).
  eexists. split; [reflexivity|].
  rewrite odd_half by assumption.
  unfold handle_remainder. cbn [final remainder]. rewrite Hb.
  cbn [String.eqb Ascii.eqb Bool.eqb result stderr lower upper
       lo_byte_file up_byte_file bytes_written].
  repeat split.
  - apply final_lower_length.
  - apply final_upper_length.
Qed.

(** C7. Assign actions: for every input of odd length L, with last byte
    [b], and positive buffer size, the call under ['lower'] (under
    ['upper']) returns [((L-1)/2, True, b)]; the chosen file holds its half
    of the even-length prefix followed by [b], (L-1)/2 + 1 bytes, and the
    other file holds its half alone, (L-1)/2 bytes.  On the one-byte input
    7F under ['upper'] the upper file is 7F, the lower file is empty and
    the count is 0. *)
Theorem C7_assign_actions input be bs :
  1 <= bs ->
  Nat.odd (List.length input) = true ->
  exists b,
    nth_error input (List.length input - 1) = Some b
    /\ (exists o,
          split_file_from_stream input be "lower" bs = Some o
          /\ result o = Returned (Z.of_nat ((List.length input - 1) / 2))
                                 true (int_of_byte b)
          /\ lower o = lo_of be (even_prefix input) ++ [b]
          /\ upper o = up_of be (even_prefix input)
          /\ List.length (lower o) = ((List.length input - 1) / 2 + 1)%nat
          /\ List.length (upper o) = ((List.length input - 1) / 2)%nat)
    /\ (exists o,
          split_file_from_stream input be "upper" bs = Some o
          /\ result o = Returned (Z.of_nat ((List.length input - 1) / 2))
                                 true (int_of_byte b)
          /\ upper o = up_of be (even_prefix input) ++ [b]
          /\ lower o = lo_of be (even_prefix input)
          /\ List.length (upper o) = ((List.length input - 1) / 2 + 1)%nat
          /\ List.length (lower o) = ((List.length input - 1) / 2)%nat)
    /\ (exists o,
          split_file_from_stream [x7f] be "upper" bs = Some o
          /\ upper o = [x7f] /\ lower o = []
          /\ result o = Returned 0 true 127).
Proof.
  intros Hbs Hodd. rewrite !split_file_from_stream_final by assumption.
  destruct (trailing_odd input Hodd) as (b & Hb & Hlast).
  exists b. split; [exact Hlast|].
  rewrite odd_half by assumption.
  pose proof (final_lower_length be input) as Hlo.
  pose proof (final_upper_length be input) as Hup.
  split; [|split].
  - eexists. split; [reflexivity|].
    unfold handle_remainder. cbn [final remainder]. rewrite Hb.
    cbn [String.eqb Ascii.eqb Bool.eqb result stderr lower upper
         lo_byte_file up_byte_file bytes_written].
    rewrite return_tuple_byte, length_app, Hlo, Hup. now repeat split.
  - eexists. split; [reflexivity|].
    unfold handle_remainder. cbn [final remainder]. rewrite Hb.
    cbn [String.eqb Ascii.eqb Bool.eqb result stderr lower upper
         lo_byte_file up_byte_file bytes_written].
    rewrite return_tuple_byte, length_app, Hlo, Hup. now repeat split.
  - eexists. split; [reflexivity|]. now destruct be.
Qed.

Lemma C7_assign_actions_witness :
  (1 <= 4 /\ Nat.odd (List.length [x10; x20; x30]) = true)
  /\ exists o,
       split_file_from_stream [x10; x20; x30] true "lower" 4 = Some o
       /\ result o = Returned 1 true 48
       /\ lower o = [x20; x30] /\ upper o = [x10].
Proof.
  split; [split; [lia | reflexivity]|].
  destruct (C7_assign_actions [x10; x20; x30] true 4)
    as (b & Hb & (o & Ho & Hr & Hlo & Hup & _) & _); [lia | reflexivity |].
  injection Hb as <-.
  exists o. repeat split; assumption.
Defined.

(** ** The loop *)

(** C8. Remainder invariant: at every loop boundary, for any buffer size,
    [remainder] holds 0 or 1 bytes, namely what follows the whole pairs of
    the bytes read so far.  When the loop ends (positive buffer size)
    [remainder] is what follows the whole pairs of the input, so it is
    empty unless the input has odd length; and once the code after the loop
    has run every byte of the input is accounted for: the two files
    together hold all of them, or all but the one odd byte where the action
    does not write it. *)
Theorem C8_remainder_invariant input be act bs s :
  boundary be bs input s ->
  (List.length (remainder s) <= 1)%nat
  /\ (exists consumed,
        input = consumed ++ word_file s
        /\ remainder s = trailing consumed)
  /\ (1 <= bs -> iteration be bs s = None ->
      remainder s = trailing input
      /\ (Nat.even (List.length input) = true -> remainder s = [])
      /\ let o := handle_remainder act s in
         (List.length (lower o) + List.length (upper o)
          + (if (act =? "lower")%string || (act =? "upper")%string
             then 0 else List.length (remainder s))
          = List.length input)%nat).
Proof.
  intros Hb. pose proof (boundary_Inv _ _ _ _ Hb) as HI.
  assert (Hrem : exists c, input = c ++ word_file s
                           /\ remainder s = trailing c).
  { destruct HI as (c & Hin & _ & _ & _ & Hr). eauto. }
  split; [|split; [exact Hrem|]].
  - destruct Hrem as (c & _ & ->). rewrite trailing_length.
    pose proof (Nat.mod_upper_bound (List.length c) 2). lia.
  - intros Hbs Hnone.
    pose proof (iteration_break_eof _ _ _ Hbs Hnone) as Heof.
    rewrite (Inv_eof _ _ _ HI Heof).
    cbn [final remainder]. split; [reflexivity|].
    split; [apply trailing_even|].
    cbv zeta. rewrite handle_remainder_lower, handle_remainder_upper.
    cbn [final remainder lo_byte_file up_byte_file].
    rewrite !length_app, lo_of_length with (k := (List.length input / 2)%nat),
      up_of_length with (k := (List.length input / 2)%nat)
      by apply even_prefix_length.
    pose proof (trailing_length input) as Ht.
    pose proof (Nat.div_mod_eq (List.length input) 2).
    destruct (String.eqb_spec act "lower") as [->|_];
      [change ("lower" =? "upper")%string with false
      |destruct (act =? "upper")%string];
      cbn [orb Datatypes.length]; lia.
Qed.

Lemma C8_remainder_invariant_witness :
  boundary true 3 [x01; x02; x03; x04; x05]
           (mkVars [x04; x05] [x02] [x01] 1 [x03])
  /\ (List.length (remainder (mkVars [x04; x05] [x02] [x01] 1 [x03])) <= 1)%nat.
Proof.
  assert (Hb : boundary true 3 [x01; x02; x03; x04; x05]
                 (mkVars [x04; x05] [x02] [x01] 1 [x03])).
  { eapply boundary_pass; [apply boundary_entry | reflexivity]. }
  split; [exact Hb|].
  apply (C8_remainder_invariant _ _ "error"%string _ _ Hb).
Defined.

(** C9. Termination: for every input and positive buffer size the loop
    ends: a pass either reads at least one byte, leaving fewer unread, or
    gets a zero-length read and [break]s; so the call produces its outcome
    within one pass more than the input has bytes, and more fuel does not
    change it. *)
Theorem C9_termination input be act bs :
  1 <= bs ->
  (forall s s', iteration be bs s = Some s' ->
     (List.length (word_file s') < List.length (word_file s))%nat)
  /\ (forall s, iteration be bs s = None <->
                fst (read bs (word_file s)) = [])
  /\ exists o,
       split_file_from_stream input be act bs = Some o
       /\ forall fuel, (List.length input < fuel)%nat ->
            split_file_from_stream_fuel fuel input be act bs = Some o.
Proof.
  intros Hbs. split; [|split].
  - intros s s'. apply iteration_consumes.
  - intros s. apply iteration_break.
  - eexists. split.
    + now apply split_file_from_stream_final.
    + intros fuel Hfuel. unfold split_file_from_stream_fuel.
      now rewrite while_true_final.
Qed.

Lemma C9_termination_witness :
  1 <= 2
  /\ exists o,
       split_file_from_stream [x01; x02; x03] true "skip" 2 = Some o
       /\ forall fuel, (3 < fuel)%nat ->
            split_file_from_stream_fuel fuel [x01; x02; x03] true "skip" 2
            = Some o.
Proof.
  split; [lia|].
  apply (C9_termination [x01; x02; x03] true "skip" 2). lia.
Defined.

(** C10. File balance: for every input, byte order, odd-byte action and
    positive buffer size, on return as on [sys.exit] the lengths of the
    two files differ by at most one; on an input of odd length under
    ['lower'] (under ['upper']) the lower (upper) file is exactly one byte
    longer, and in every other case the two lengths are equal. *)
Theorem C10_file_balance input be act bs :
  1 <= bs ->
  exists o,
    split_file_from_stream input be act bs = Some o
    /\ (List.length (lower o) <= List.length (upper o) + 1)%nat
    /\ (List.length (upper o) <= List.length (lower o) + 1)%nat
    /\ (Nat.odd (List.length input) = true -> act = "lower"%string ->
        List.length (lower o) = S (List.length (upper o)))
    /\ (Nat.odd (List.length input) = true -> act = "upper"%string ->
        List.length (upper o) = S (List.length (lower o)))
    /\ (~ (Nat.odd (List.length input) = true
           /\ (act = "lower"%string \/ act = "upper"%string)) ->
        List.length (lower o) = List.length (upper o)).
Proof.
  intros Hbs. rewrite split_file_from_stream_final by assumption.
  eexists. split; [reflexivity|].
  rewrite handle_remainder_lower, handle_remainder_upper, !length_app.
  rewrite final_lower_length, final_upper_length.
  cbn [final remainder].
  assert (Hlen : List.length (trailing input)
                 = if Nat.odd (List.length input) then 1%nat else 0%nat).
  { destruct (Nat.odd (List.length input)) eqn:Ho.
    - destruct (trailing_odd _ Ho) as (b & -> & _). reflexivity.
    - rewrite trailing_even; [reflexivity|].
      now rewrite <- Nat.negb_odd, Ho. }
  destruct (Nat.odd (List.length input));
    (destruct (String.eqb_spec act "lower") as [->|Hl];
     [change ("lower" =? "upper")%string with false
     |destruct (String.eqb_spec act "upper") as [->|Hu]]);
    cbn [Datatypes.length]; rewrite ?Hlen;
    repeat split; intros;
    try lia; try discriminate; try congruence;
    match goal with
    | N : ~ _ |- _ => exfalso; apply N; split; [reflexivity | auto]
    end.
Qed.

Lemma C10_file_balance_witness :
  1 <= 2
  /\ exists o,
       split_file_from_stream [x01; x02; x03] false "upper" 2 = Some o
       /\ (List.length (lower o) <= List.length (upper o) + 1)%nat
       /\ (List.length (upper o) <= List.length (lower o) + 1)%nat.
Proof.
  split; [lia|].
  destruct (C10_file_balance [x01; x02; x03] false "upper" 2)
    as (o & Ho & H1 & H2 & _); [lia|].
  exists o. repeat split; assumption.
Defined.

(** ** Further properties of [split_file_from_stream] *)

(** Case analysis on the action string, in the order of the [if]/[elif]
    chain. *)
Ltac case_action act :=
  destruct (String.eqb_spec act "error") as [->|?];
  [|destruct (String.eqb_spec act "skip") as [->|?];
    [|destruct (String.eqb_spec act "lower") as [->|?];
      [|destruct (String.eqb_spec act "upper") as [->|?]]]].

Lemma even_prefix_even (a : bytes) :
  Nat.even (List.length a) = true -> even_prefix a = a.
Proof.
  intros H. rewrite <- (even_prefix_trailing a) at 2.
  now rewrite trailing_even, app_nil_r.
Qed.

(** Output already in the files, and pairs already counted, pass through
    the code after the loop unchanged. *)
Lemma handle_remainder_prepend act l0 u0 n0 s :
  let o := handle_remainder act s in
  handle_remainder act
    (mkVars (word_file s) (l0 ++ lo_byte_file s) (u0 ++ up_byte_file s)
            (n0 + bytes_written s) (remainder s))
  = mkOutcome (l0 ++ lower o) (u0 ++ upper o) (stderr o)
      match result o with
      | Returned n h v => Returned (n0 + n) h v
      | SysExit c => SysExit c
      end.
Proof.
  unfold handle_remainder.
  cbn [word_file lo_byte_file up_byte_file bytes_written remainder].
  destruct (remainder s) as [|b r]; [reflexivity|].
  case_action act; cbn; rewrite <- ?app_assoc; reflexivity.
Qed.

(** X1. Cutting the input at a word boundary: when [a] has even length,
    splitting [a ++ b] gives the files of [a] followed by the files of [b],
    and the result of [b] with the pairs of [a] added to the count,
    whatever positive buffer size each of the three calls uses. *)
Theorem X1_split_at_word_boundary a b be act bsa bsb bs :
  1 <= bsa -> 1 <= bsb -> 1 <= bs ->
  Nat.even (List.length a) = true ->
  exists oa ob o,
    split_file_from_stream a be act bsa = Some oa
    /\ split_file_from_stream b be act bsb = Some ob
    /\ split_file_from_stream (a ++ b) be act bs = Some o
    /\ lower o = lower oa ++ lower ob
    /\ upper o = upper oa ++ upper ob
    /\ result o = match result ob with
                  | Returned n h v =>
                      Returned (Z.of_nat (List.length a / 2) + n) h v
                  | SysExit c => SysExit c
                  end.
Proof.
  intros Ha Hb Hab Hev.
  rewrite !split_file_from_stream_final by assumption.
  do 3 eexists. do 3 (split; [reflexivity|]).
  rewrite (handle_remainder_none act (final be a))
    by (now apply trailing_even).
  cbn [lower upper final lo_byte_file up_byte_file].
  rewrite (even_prefix_even a Hev).
  pose proof Hev as Hk. apply Nat.even_spec in Hk as [k Hk].
  assert (E : final be (a ++ b)
              = mkVars (word_file (final be b))
                  (lo_of be a ++ lo_byte_file (final be b))
                  (up_of be a ++ up_byte_file (final be b))
                  (Z.of_nat (List.length a / 2) + bytes_written (final be b))
                  (remainder (final be b))).
  { unfold final.
    cbn [word_file lo_byte_file up_byte_file bytes_written remainder].
    rewrite (even_prefix_app k), (trailing_app k), (half_app k),
      (lo_of_app be k), (up_of_app be k) by assumption.
    rewrite Hk, Nat.mul_comm, Nat.div_mul, Nat2Z.inj_add by lia.
    reflexivity. }
  rewrite E, handle_remainder_prepend. cbn [lower upper result].
  repeat split.
Qed.

Lemma X1_split_at_word_boundary_witness :
  (1 <= 1 /\ 1 <= 3 /\ 1 <= 2
   /\ Nat.even (List.length [x01; x02]) = true)
  /\ exists oa ob o,
       split_file_from_stream [x01; x02] true "lower" 1 = Some oa
       /\ split_file_from_stream [x03; x04; x05] true "lower" 3 = Some ob
       /\ split_file_from_stream ([x01; x02] ++ [x03; x04; x05])
            true "lower" 2 = Some o
       /\ lower o = lower oa ++ lower ob
       /\ upper o = upper oa ++ upper ob.
Proof.
  split; [repeat split; lia|].
  destruct (X1_split_at_word_boundary [x01; x02] [x03; x04; x05]
              true "lower" 1 3 2)
    as (oa & ob & o & Ha & Hb & Ho & Hl & Hu & _);
    [lia | lia | lia | reflexivity |].
  exists oa, ob, o. repeat split; assumption.
Defined.

(** X2. Switching the byte order exchanges the two files: the little-endian
    lower file is the big-endian upper file and the other way round, with
    the same returned tuple or exit, when the odd byte is sent to the other
    file as well. *)
Theorem X2_byte_order_swaps_files input act bs :
  1 <= bs ->
  exists o o',
    split_file_from_stream input false act bs = Some o
    /\ split_file_from_stream input true (swap_action act) bs = Some o'
    /\ lower o = upper o'
    /\ upper o = lower o'
    /\ result o = result o'.
Proof.
  intros Hbs. rewrite !split_file_from_stream_final by assumption.
  do 2 eexists. do 2 (split; [reflexivity|]).
  rewrite !handle_remainder_lower, !handle_remainder_upper.
  unfold handle_remainder, swap_action.
  cbn [final remainder lo_byte_file up_byte_file bytes_written lo_of up_of].
  destruct (trailing input) as [|b r];
    case_action act; cbn; try (repeat split; reflexivity).
  all: repeat match goal with
         | H : _ <> _ |- _ => apply String.eqb_neq in H; rewrite ?H
         end;
    repeat split; reflexivity.
Qed.

Lemma X2_byte_order_swaps_files_witness :
  1 <= 2
  /\ exists o o',
       split_file_from_stream [x01; x02; x03] false "lower" 2 = Some o
       /\ split_file_from_stream [x01; x02; x03] true "upper" 2 = Some o'
       /\ lower o = upper o' /\ upper o = lower o' /\ result o = result o'.
Proof.
  split; [lia|].
  apply (X2_byte_order_swaps_files [x01; x02; x03] "lower" 2). lia.
Defined.

(** X3. The count the function returns is the length of the shorter of the
    two files, so twice the count never exceeds the bytes written. *)
Theorem X3_count_is_shorter_file input be act bs :
  1 <= bs ->
  exists o,
    split_file_from_stream input be act bs = Some o
    /\ forall n h v,
         result o = Returned n h v ->
         n = Z.of_nat (Nat.min (List.length (lower o))
                               (List.length (upper o))).
Proof.
  intros Hbs. rewrite split_file_from_stream_final by assumption.
  eexists. split; [reflexivity|]. intros n h v Hr.
  assert (Hn : n = Z.of_nat (List.length input / 2)).
  { revert Hr. unfold handle_remainder, return_tuple.
    cbn [final remainder bytes_written].
    destruct (trailing input);
      [|destruct (act =? "error")%string, (act =? "skip")%string,
          (act =? "lower")%string, (act =? "upper")%string];
      cbn [result]; congruence. }
  rewrite handle_remainder_lower, handle_remainder_upper, !length_app.
  rewrite final_lower_length, final_upper_length.
  destruct (String.eqb_spec act "lower") as [->|_];
    [change ("lower" =? "upper")%string with false
    |destruct (act =? "upper")%string];
    cbn [Datatypes.length]; subst n; f_equal; lia.
Qed.

Lemma X3_count_is_shorter_file_witness :
  1 <= 2
  /\ exists o,
       split_file_from_stream [x01; x02; x03] true "upper" 2 = Some o
       /\ forall n h v,
            result o = Returned n h v ->
            n = Z.of_nat (Nat.min (List.length (lower o))
                                  (List.length (upper o))).
Proof.
  split; [lia|].
  apply (X3_count_is_shorter_file [x01; x02; x03] true "upper" 2). lia.
Defined.

(** X4. Buffer size 0: the first read is empty, so the loop ends at once;
    whatever the input, both files are left empty, nothing is printed and
    the function returns [(0, False, -1)]. *)
Theorem X4_buffer_size_zero input be act :
  split_file_from_stream input be act 0
  = Some (mkOutcome [] [] [] (Returned 0 false (-1))).
Proof.
  unfold split_file_from_stream, split_file_from_stream_fuel.
  cbn [while_true].
  assert (E : iteration be 0 (init input) = None).
  { apply iteration_break. reflexivity. }
  rewrite E. reflexivity.
Qed.

(** X5. An action string that is none of the four: on an input of odd
    length the odd byte goes to neither file, yet the function returns
    [(L/2, True, b)] with [b] the last byte. *)
Theorem X5_unknown_action input be act bs :
  1 <= bs ->
  Nat.odd (List.length input) = true ->
  act <> "error"%string -> act <> "skip"%string ->
  act <> "lower"%string -> act <> "upper"%string ->
  exists o b,
    nth_error input (List.length input - 1) = Some b
    /\ split_file_from_stream input be act bs = Some o
    /\ lower o = lo_of be (even_prefix input)
    /\ upper o = up_of be (even_prefix input)
    /\ result o = Returned (Z.of_nat (List.length input / 2)) true
                           (int_of_byte b).
Proof.
  intros Hbs Hodd H1 H2 H3 H4.
  rewrite split_file_from_stream_final by assumption.
  destruct (trailing_odd input Hodd) as (b & Hb & Hlast).
  eexists; exists b. split; [exact Hlast|]. split; [reflexivity|].
  unfold handle_remainder. cbn [final remainder]. rewrite Hb.
  apply String.eqb_neq in H1, H2, H3, H4. rewrite H1, H2, H3, H4.
  cbn [lower upper result lo_byte_file up_byte_file bytes_written].
  rewrite return_tuple_byte. repeat split.
Qed.

Lemma X5_unknown_action_witness :
  (1 <= 2 /\ Nat.odd (List.length [x01; x02; x03]) = true)
  /\ exists o,
       split_file_from_stream [x01; x02; x03] true "keep" 2 = Some o
       /\ lower o = [x02] /\ upper o = [x01]
       /\ result o = Returned 1 true 3.
Proof.
  split; [split; [lia | reflexivity]|].
  destruct (X5_unknown_action [x01; x02; x03] true "keep" 2)
    as (o & b & Hb & Ho & Hlo & Hup & Hr);
    [lia | reflexivity | discriminate | discriminate | discriminate
    | discriminate |].
  injection Hb as <-.
  exists o. repeat split; assumption.
Defined.

Lemma stride2_halves_perm k : forall a : bytes,
  List.length a = (2 * k)%nat ->
  Permutation (stride2 a ++ stride2_from1 a) a.
Proof.
  unfold stride2_from1.
  induction k as [|k IH]; intros a Ha.
  - destruct a; [constructor | discriminate].
  - destruct a as [|x [|y a]]; try (simpl in Ha; lia).
    cbn [tl]. rewrite (stride2_cons y a).
    cbn [stride2 app]. apply perm_skip.
    symmetry. apply Permutation_cons_app. symmetry.
    apply IH. simpl in Ha. lia.
Qed.

Lemma files_perm (A B P x y z : bytes) :
  Permutation (A ++ B) P ->
  Permutation ((A ++ x) ++ (B ++ y) ++ z) (P ++ x ++ y ++ z).
Proof.
  intros HP. rewrite <- HP, <- !app_assoc.
  apply Permutation_app_head. rewrite !app_assoc.
  do 2 apply Permutation_app_tail. apply Permutation_app_comm.
Qed.

(** X6. No byte is lost, made up or written twice: the lower file, the
    upper file and the odd byte the action leaves out are, together, a
    rearrangement of the input. *)
Theorem X6_bytes_conserved input be act bs :
  1 <= bs ->
  exists o,
    split_file_from_stream input be act bs = Some o
    /\ Permutation (lower o ++ upper o ++ dropped act input) input.
Proof.
  intros Hbs. rewrite split_file_from_stream_final by assumption.
  eexists. split; [reflexivity|].
  rewrite handle_remainder_lower, handle_remainder_upper.
  cbn [final remainder lo_byte_file up_byte_file].
  assert (HP : Permutation (lo_of be (even_prefix input)
                              ++ up_of be (even_prefix input))
                           (even_prefix input)).
  { pose proof (stride2_halves_perm _ _ (even_prefix_length input)) as H.
    destruct be; cbn [lo_of up_of]; [|exact H].
    rewrite Permutation_app_comm. exact H. }
  rewrite (files_perm _ _ _ _ _ _ HP).
  apply Permutation_trans with (even_prefix input ++ trailing input);
    [|now rewrite even_prefix_trailing].
  apply Permutation_app_head. unfold dropped.
  destruct (String.eqb_spec act "lower") as [->|_];
    [cbn; now rewrite app_nil_r|].
  destruct (act =? "upper")%string; cbn; now rewrite ?app_nil_r.
Qed.

Lemma X6_bytes_conserved_witness :
  1 <= 2
  /\ exists o,
       split_file_from_stream [x01; x02; x03] true "skip" 2 = Some o
       /\ Permutation (lower o ++ upper o ++ dropped "skip" [x01; x02; x03])
                      [x01; x02; x03].
Proof.
  split; [lia|].
  apply (X6_bytes_conserved [x01; x02; x03] true "skip" 2). lia.
Defined.

(** *** The number of reads *)

Lemma iteration_rest be bs s s' :
  1 <= bs -> iteration be bs s = Some s' ->
  word_file s' = skipn (Z.to_nat bs) (word_file s).
Proof.
  intros Hbs H. apply iteration_pass in H as (x & d & R & _).
  unfold read in R. destruct (Z.ltb_spec bs 0); [lia|].
  now injection R as _ <-.
Qed.

Lemma ceil_step n bs :
  1 <= bs -> 1 <= n ->
  (n + bs - 1) / bs = 1 + (Z.max 0 (n - bs) + bs - 1) / bs.
Proof.
  intros Hbs Hn. destruct (Z.le_gt_cases n bs) as [H|H].
  - rewrite Z.max_l by lia.
    rewrite (Z.div_small (0 + bs - 1)) by lia.
    replace (n + bs - 1) with (n - 1 + 1 * bs) by lia.
    rewrite Z.div_add, Z.div_small by lia. reflexivity.
  - rewrite Z.max_r by lia.
    replace (n + bs - 1) with (n - bs + bs - 1 + 1 * bs) by lia.
    rewrite Z.div_add by lia. lia.
Qed.

Lemma while_true_passes be bs : forall fuel s,
  1 <= bs ->
  (while_true fuel be bs s <> None
   <-> (len (word_file s) + bs - 1) / bs < Z.of_nat fuel).
Proof.
  induction fuel as [|fuel IH]; intros s Hbs.
  - cbn [while_true]. split; [congruence|].
    assert (0 <= (len (word_file s) + bs - 1) / bs)
      by (apply Z.div_pos; unfold len; lia).
    lia.
  - cbn [while_true]. destruct (iteration be bs s) as [s'|] eqn:It.
    + rewrite (IH s' Hbs).
      pose proof (iteration_consumes _ _ _ _ It) as Hlt.
      rewrite (iteration_rest _ _ _ _ Hbs It) in *.
      rewrite (ceil_step (len (word_file s))) by (unfold len; lia).
      unfold len in *. rewrite length_skipn in *.
      replace (Z.of_nat (List.length (word_file s) - Z.to_nat bs))
        with (Z.max 0 (Z.of_nat (List.length (word_file s)) - bs)) by lia.
      lia.
    + apply (iteration_break_eof _ _ _ Hbs) in It. rewrite It.
      cbn. rewrite Z.div_small by lia. split; [lia | congruence].
Qed.

(** X7. The number of reads: with a positive buffer size the loop makes
    exactly ceil(L / buffer_size) passes that read data before the empty
    read that ends it, so it ends within a given number of passes exactly
    when that number exceeds ceil(L / buffer_size). *)
Theorem X7_number_of_passes input be bs fuel :
  1 <= bs ->
  (while_true fuel be bs (init input) <> None
   <-> (len input + bs - 1) / bs < Z.of_nat fuel).
Proof. intros Hbs. now apply while_true_passes. Qed.

Lemma X7_number_of_passes_witness :
  1 <= 2
  /\ (while_true 3 true 2 (init [x01; x02; x03]) <> None
      <-> (len [x01; x02; x03] + 2 - 1) / 2 < Z.of_nat 3).
Proof.
  split; [lia|].
  apply (X7_number_of_passes [x01; x02; x03] true 2 3). lia.
Defined.

(** ** The checks before the split *)

Lemma lower_char_y c :
  lower_char c = "y"%char <-> c = "y"%char \/ c = "Y"%char.
Proof.
  destruct c as [[] [] [] [] [] [] [] []]; cbn;
    split; intros H; try discriminate H; auto;
    destruct H as [H|H]; discriminate H.
Qed.

Lemma check_output_files_true lo_file up_file lo_exists up_exists
  force isatty response :
  snd (check_output_files lo_file up_file lo_exists up_exists force isatty
                          response) = Done true
  <-> lo_exists || up_exists = false
      \/ force = true
      \/ (isatty = true
          /\ exists r, response = Some r
               /\ (r = EmptyString
                   \/ exists c r', r = String c r'
                        /\ (c = "y"%char \/ c = "Y"%char))).
Proof.
  unfold check_output_files.
  destruct (lo_exists || up_exists); [|cbn; tauto].
  destruct force; [cbn; tauto|].
  destruct isatty; cbn [negb].
  - destruct response as [[|c r]|]; cbn.
    + split; [|reflexivity]. intros _. right; right. eauto 10.
    + destruct (Ascii.eqb_spec (lower_char c) "y") as [E|E]; cbn.
      * split; [|reflexivity]. intros _. right; right.
        apply lower_char_y in E. eauto 10.
      * split; [discriminate|].
        intros [H|[H|(_ & r0 & [= <-] & [H|(c' & r' & [= <- <-] & H)])]];
          try discriminate H.
        apply lower_char_y in H. contradiction.
    + split; [discriminate|].
      intros [H|[H|(_ & r0 & H & _)]]; discriminate H.
  - cbn. split; [discriminate|].
    intros [H|[H|(H & _)]]; discriminate H.
Qed.

(** X8. Overwriting needs consent: [check_output_files] answers [True]
    exactly when no output file exists, or [--force] is given, or standard
    input is a terminal and the answer at the prompt is empty or begins
    with [y] or [Y]. *)
Theorem X8_overwrite_needs_consent lo_file up_file lo_exists up_exists
  force isatty response :
  snd (check_output_files lo_file up_file lo_exists up_exists force isatty
                          response) = Done true
  <-> lo_exists || up_exists = false
      \/ force = true
      \/ (isatty = true
          /\ exists r, response = Some r
               /\ (r = EmptyString
                   \/ exists c r', r = String c r'
                        /\ (c = "y"%char \/ c = "Y"%char))).
Proof. apply check_output_files_true. Qed.

Lemma X8_overwrite_needs_consent_witness :
  snd (check_output_files "a.lower.bin" "a.upper.bin" true false false true
                          (Some "Yes"%string)) = Done true.
Proof.
  apply (X8_overwrite_needs_consent "a.lower.bin" "a.upper.bin" true false
           false true (Some "Yes"%string)).
  right; right. split; [reflexivity|].
  exists "Yes"%string. split; [reflexivity|]. right.
  exists "Y"%char, "es"%string. split; [reflexivity | now right].
Defined.

(** ** Archives *)

Lemma filter_first {A : Type} (f : A -> bool) : forall l x xs,
  filter f l = x :: xs ->
  exists skipped rest,
    l = skipped ++ x :: rest
    /\ Forall (fun y => f y = false) skipped
    /\ f x = true.
Proof.
  induction l as [|y l IH]; intros x xs H; [discriminate|].
  cbn in H. destruct (f y) eqn:Fy.
  - injection H as -> _. exists [], l. auto.
  - destruct (IH _ _ H) as (sk & rest & -> & Hsk & Hx).
    exists (y :: sk), rest. auto.
Qed.

Lemma filter_skipped {A : Type} (f : A -> bool) skipped x rest :
  Forall (fun y => f y = false) skipped -> f x = true ->
  filter f (skipped ++ x :: rest) = x :: filter f rest.
Proof.
  intros Hsk Hx. induction Hsk as [|y sk Hy _ IH]; cbn.
  - now rewrite Hx.
  - now rewrite Hy.
Qed.

Lemma process_entries_skipped skipped e rest be act bs :
  Forall (fun y => isfile y = false) skipped -> isfile e = true ->
  process_entries (skipped ++ e :: rest) be act bs
  = ([], Done (split_file_from_stream (List.concat (get_blocks e))
                                      be act bs)).
Proof.
  intros Hsk He. induction Hsk as [|y sk Hy _ IH]; cbn.
  - now rewrite He.
  - now rewrite Hy.
Qed.

Lemma get_first_file_skipped skipped e rest :
  Forall (fun y => isfile y = false) skipped -> isfile e = true ->
  exists l,
    get_first_file_from_archive true (skipped ++ e :: rest)
    = (l, Done (name e)).
Proof.
  intros Hsk He. unfold get_first_file_from_archive. cbn [negb].
  rewrite (filter_skipped _ _ _ _ Hsk He). cbn [map].
  destruct (1 <? _); cbn; eauto.
Qed.

(** X9. The first regular file of an archive: entries before it that are
    not regular files are passed over and entries after it are not looked
    at; [get_first_file_from_archive] returns its name and
    [process_archive] splits its blocks, joined, printing nothing of its
    own. *)
Theorem X9_archive_first_file skipped e rest be act bs :
  Forall (fun y => isfile y = false) skipped ->
  isfile e = true ->
  (exists l,
     get_first_file_from_archive true (skipped ++ e :: rest)
     = (l, Done (name e)))
  /\ process_archive true (skipped ++ e :: rest) be act bs
     = ([], Done (split_file_from_stream (List.concat (get_blocks e))
                                         be act bs)).
Proof.
  intros Hsk He. split.
  - now apply get_first_file_skipped.
  - now apply process_entries_skipped.
Qed.

Lemma X9_archive_first_file_witness :
  (Forall (fun y => isfile y = false) [mkEntry "docs" false []]
   /\ isfile (mkEntry "rom.bin" true [[x01]; [x02; x03]]) = true)
  /\ process_archive true
       ([mkEntry "docs" false []]
          ++ mkEntry "rom.bin" true [[x01]; [x02; x03]]
          :: [mkEntry "other.bin" true [[xff]]])
       true "skip" 2
     = ([], Done (split_file_from_stream [x01; x02; x03] true "skip" 2)).
Proof.
  assert (H : Forall (fun y => isfile y = false) [mkEntry "docs" false []])
    by (repeat constructor).
  split; [split; [exact H | reflexivity]|].
  apply (X9_archive_first_file [mkEntry "docs" false []]
           (mkEntry "rom.bin" true [[x01]; [x02; x03]])
           [mkEntry "other.bin" true [[xff]]] true "skip" 2 H eq_refl).
Defined.

(** X10. An archive without a regular file: both functions end in
    [sys.exit(1)] after one error line, and the splitter is not called, so
    no output file is opened. *)
Theorem X10_archive_without_file archive be act bs :
  Forall (fun y => isfile y = false) archive ->
  get_first_file_from_archive true archive
  = ([Err "Error: No files found in archive"], Exit 1)
  /\ process_archive true archive be act bs
     = ([Err "Error: Failed to extract file from archive"], Exit 1).
Proof.
  intros H. unfold get_first_file_from_archive, process_archive.
  cbn [negb]. split.
  - replace (filter isfile archive) with (@nil Entry); [reflexivity|].
    induction H as [|y l Hy _ IH]; cbn; [reflexivity|]. now rewrite Hy.
  - induction H as [|y l Hy _ IH]; cbn; [reflexivity|]. now rewrite Hy.
Qed.

Lemma X10_archive_without_file_witness :
  Forall (fun y => isfile y = false) [mkEntry "docs" false []]
  /\ process_archive true [mkEntry "docs" false []] true "error" 8
     = ([Err "Error: Failed to extract file from archive"], Exit 1).
Proof.
  assert (H : Forall (fun y => isfile y = false) [mkEntry "docs" false []])
    by (repeat constructor).
  split; [exact H|].
  apply (X10_archive_without_file [mkEntry "docs" false []]
           true "error" 8 H).
Defined.

(** ** The buffer size [main] picks *)

Lemma buffer_size_for_bounds is_archive file_size :
  1 <= buffer_size_for is_archive file_size <= 524288.
Proof.
  unfold buffer_size_for. destruct is_archive; [lia|].
  destruct (Z.ltb_spec 0 file_size); lia.
Qed.

(** X11. The buffer size [main] computes lies between 1 and 524288 for
    every file size, archive or not, and for a plain file of 1 to 524288
    bytes it is the file size. *)
Theorem X11_buffer_size_bounds is_archive file_size :
  1 <= buffer_size_for is_archive file_size <= 524288
  /\ (is_archive = false -> 1 <= file_size <= 524288 ->
      buffer_size_for is_archive file_size = file_size).
Proof.
  split; [apply buffer_size_for_bounds|].
  intros -> H. unfold buffer_size_for.
  destruct (Z.ltb_spec 0 file_size); lia.
Qed.

Lemma X11_buffer_size_bounds_witness :
  (false = false /\ 1 <= 1000 <= 524288)
  /\ buffer_size_for false 1000 = 1000.
Proof.
  split; [split; [reflexivity | lia]|].
  apply (X11_buffer_size_bounds false 1000); [reflexivity | lia].
Defined.

Lemma archive_same_as_plain skipped e rest be act archive_size :
  Forall (fun y => isfile y = false) skipped ->
  isfile e = true ->
  let data := List.concat (get_blocks e) in
  exists o,
    split_file data be act (buffer_size_for false (len data)) = Some o
    /\ process_archive true (skipped ++ e :: rest) be act
         (buffer_size_for true archive_size)
       = ([], Done (Some o)).
Proof.
  intros Hsk He data. unfold process_archive, split_file. cbn [negb].
  rewrite (process_entries_skipped _ _ _ _ _ _ Hsk He). fold data.
  rewrite !split_file_from_stream_final by apply buffer_size_for_bounds.
  eauto.
Qed.

(** X12. A file in an archive and the same bytes as a plain file: with the
    buffer sizes [main] picks for each (512 KiB for an archive, the file
    size up to 512 KiB for a plain file), [process_archive] and
    [split_file] both reach an outcome, with the same lower file, the same
    upper file and the same result. *)
Theorem X12_archive_same_as_plain skipped e rest be act archive_size :
  Forall (fun y => isfile y = false) skipped ->
  isfile e = true ->
  let data := List.concat (get_blocks e) in
  exists o o' l,
    split_file data be act (buffer_size_for false (len data)) = Some o
    /\ process_archive true (skipped ++ e :: rest) be act
         (buffer_size_for true archive_size)
       = (l, Done (Some o'))
    /\ lower o = lower o'
    /\ upper o = upper o'
    /\ result o = result o'.
Proof.
  intros Hsk He data.
  destruct (archive_same_as_plain skipped e rest be act archive_size Hsk He)
    as (o & Ho & Hp).
  exists o, o, []. repeat split; assumption.
Qed.

Lemma X12_archive_same_as_plain_witness :
  (Forall (fun y => isfile y = false) (@nil Entry)
   /\ isfile (mkEntry "rom.bin" true [[x01]; [x02; x03]]) = true)
  /\ exists o o' l,
       split_file [x01; x02; x03] true "upper" 3 = Some o
       /\ process_archive true
            ([] ++ mkEntry "rom.bin" true [[x01]; [x02; x03]] :: [])
            true "upper" 524288
          = (l, Done (Some o'))
       /\ lower o = lower o'
       /\ upper o = upper o'
       /\ result o = result o'.
Proof.
  split; [split; [constructor | reflexivity]|].
  apply (X12_archive_same_as_plain [] (mkEntry "rom.bin" true [[x01]; [x02; x03]])
           [] true "upper" 1000 (Forall_nil _) eq_refl).
Defined.

Lemma while_true_boundary be bs input : forall fuel s s',
  while_true fuel be bs s = Some s' ->
  boundary be bs input s ->
  boundary be bs input s' /\ iteration be bs s' = None.
Proof.
  induction fuel as [|fuel IH]; intros s s' W Hb; [discriminate|].
  cbn [while_true] in W. destruct (iteration be bs s) as [s1|] eqn:It.
  - apply (IH s1 s' W). eapply boundary_pass; eauto.
  - injection W as <-. auto.
Qed.

(** X13. A plain file of 1 to 524288 bytes is read in one piece: with the
    buffer size [main] picks, the first pass of the loop reads the whole
    file and the second read is empty, so the loop ends in its second pass
    and not in its first. *)
Theorem X13_small_file_single_read input be :
  1 <= len input <= 524288 ->
  while_true 1 be (buffer_size_for false (len input)) (init input) = None
  /\ while_true 2 be (buffer_size_for false (len input)) (init input)
     = Some (final be input).
Proof.
  intros H.
  assert (E : buffer_size_for false (len input) = len input).
  { unfold buffer_size_for. destruct (Z.ltb_spec 0 (len input)); lia. }
  rewrite E.
  assert (C : (len input + len input - 1) / len input = 1).
  { replace (len input + len input - 1)
      with (len input - 1 + 1 * len input) by lia.
    rewrite Z.div_add, Z.div_small by lia. reflexivity. }
  pose proof (while_true_passes be (len input) 1 (init input)) as P1.
  pose proof (while_true_passes be (len input) 2 (init input)) as P2.
  cbn [init word_file] in P1, P2. rewrite C in P1, P2.
  split.
  - destruct (while_true 1 be (len input) (init input)); [|reflexivity].
    exfalso. assert (1 < Z.of_nat 1) by (apply P1; [lia | discriminate]).
    lia.
  - destruct (while_true 2 be (len input) (init input)) as [s'|] eqn:W.
    + destruct (while_true_boundary be (len input) input 2 _ _ W
                  (boundary_entry _ _ _)) as (Hb & It).
      f_equal. apply Inv_eof.
      * eapply boundary_Inv; eauto.
      * eapply iteration_break_eof; [|eauto]. lia.
    + exfalso. apply P2; [lia | lia | reflexivity].
Qed.

Lemma X13_small_file_single_read_witness :
  1 <= len [x01; x02; x03] <= 524288
  /\ while_true 1 true (buffer_size_for false (len [x01; x02; x03]))
       (init [x01; x02; x03]) = None
  /\ while_true 2 true (buffer_size_for false (len [x01; x02; x03]))
       (init [x01; x02; x03]) = Some (final true [x01; x02; x03]).
Proof.
  assert (H : 1 <= len [x01; x02; x03] <= 524288) by (cbn; lia).
  split; [exact H|].
  apply (X13_small_file_single_read [x01; x02; x03] true H).
Defined.

(** ** [main] *)

Lemma bind_done {A B : Type} (m : Script A) (k : A -> Script B) l b :
  bind m k = (l, Done b) ->
  exists l1 a l2, m = (l1, Done a) /\ k a = (l2, Done b) /\ l = l1 ++ l2.
Proof.
  unfold bind. destruct m as [l1 [a|c]]; [|discriminate].
  destruct (k a) as [l2 r] eqn:K. intros [= <- ->]. eauto 6.
Qed.

Lemma bind_no_out {A B : Type} (m : Script A) (k : A -> Script B) :
  Forall not_out (fst m) ->
  (forall a, Forall not_out (fst (k a))) ->
  Forall not_out (fst (bind m k)).
Proof.
  intros Hm Hk. unfold bind. destruct m as [l [a|c]]; [|exact Hm].
  specialize (Hk a). destruct (k a) as [l' r]. cbn in *.
  apply Forall_app. auto.
Qed.

Lemma check_input_file_no_out f e i n :
  Forall not_out (fst (check_input_file f e i n)).
Proof.
  unfold check_input_file.
  destruct e, i, (n =? 0); cbn; repeat constructor.
Qed.

Lemma check_output_files_no_out lo up le ue force tty resp :
  Forall not_out (fst (check_output_files lo up le ue force tty resp)).
Proof.
  unfold check_output_files.
  destruct (le || ue), force, tty; cbn; repeat constructor.
  all: destruct resp as [[|c r]|]; cbn; repeat constructor.
  all: destruct (lower_char c =? "y")%char; cbn; repeat constructor.
Qed.

Lemma get_first_file_no_out avail archive :
  Forall not_out (fst (get_first_file_from_archive avail archive)).
Proof.
  unfold get_first_file_from_archive.
  destruct avail; cbn [negb]; [|cbn; repeat constructor].
  destruct (map name (filter isfile archive)) as [|first others] eqn:E;
    [cbn; repeat constructor|].
  apply bind_no_out; [|intros; constructor].
  destruct (1 <? _); [|constructor].
  apply bind_no_out; [cbn; repeat constructor | intros _].
  apply bind_no_out; [|intros _].
  - cbn [fst]. apply Forall_forall. intros x Hx.
    apply in_map_iff in Hx as (f & <- & _). exact I.
  - apply bind_no_out; [|intros _]; cbn; repeat constructor.
Qed.

Lemma process_archive_no_out avail archive be act bs :
  Forall not_out (fst (process_archive avail archive be act bs)).
Proof.
  unfold process_archive. destruct avail; cbn [negb];
    [|cbn; repeat constructor].
  induction archive as [|e archive IH]; cbn; [repeat constructor|].
  destruct (isfile e); [constructor | exact IH].
Qed.

Lemma main_prepare_no_out args env :
  Forall not_out (fst (main_prepare args env)).
Proof.
  unfold main_prepare.
  destruct (input_exists env); cbn [negb]; [|cbn; repeat constructor].
  destruct (input_is_file env); cbn [negb]; [|cbn; repeat constructor].
  apply bind_no_out.
  - destruct (existsb _ _).
    + destruct (libarchive_available env); cbn [negb];
        [|cbn; repeat constructor].
      apply bind_no_out; [apply get_first_file_no_out | intros; constructor].
    + apply bind_no_out; [apply check_input_file_no_out|intros; constructor].
  - intros [lo up]. apply bind_no_out;
      [apply check_output_files_no_out|].
    intros []; cbn; constructor.
Qed.

(** What [main] has established when it calls the splitter. *)
Lemma main_prepare_done args env l is_archive lo_file up_file buffer_size :
  main_prepare args env = (l, Done (is_archive, lo_file, up_file, buffer_size)) ->
  buffer_size = buffer_size_for is_archive (len (input_contents env))
  /\ snd (check_output_files lo_file up_file
            (output_exists env lo_file) (output_exists env up_file)
            (arg_force args) (stdin_isatty env) (stdin_response env))
     = Done true
  /\ (exists base, output_names env base = (lo_file, up_file))
  /\ (is_archive = true ->
      libarchive_available env = true
      /\ exists l0 n,
           get_first_file_from_archive true (input_archive env)
           = (l0, Done n)).
Proof.
  unfold main_prepare.
  generalize (existsb (String.eqb (input_suffix env)) ALL_ARCHIVE_EXTENSIONS).
  intros a.
  destruct (input_exists env); cbn [negb]; [|discriminate].
  destruct (input_is_file env); cbn [negb]; [|discriminate].
  intros H. apply bind_done in H as (l1 & [lo up] & l2 & Hn & H & _).
  apply bind_done in H as (l3 & ok & l4 & Hc & H & _).
  destruct ok; cbn [negb] in H; [|discriminate].
  injection H as _ <- <- <- <-.
  split; [reflexivity|]. split; [now rewrite Hc|].
  destruct a.
  - destruct (libarchive_available env) eqn:Av; cbn [negb] in Hn;
      [|discriminate].
    apply bind_done in Hn as (l5 & n & l6 & Hg & Hr & _).
    injection Hr as _ Hr. split; [eauto|]. intros _. eauto.
  - apply bind_done in Hn as (l5 & u & l6 & _ & Hr & _).
    injection Hr as _ Hr. split; [eauto|]. discriminate.
Qed.

Lemma get_first_file_done archive l n :
  get_first_file_from_archive true archive = (l, Done n) ->
  exists skipped e rest,
    archive = skipped ++ e :: rest
    /\ Forall (fun y => isfile y = false) skipped
    /\ isfile e = true.
Proof.
  unfold get_first_file_from_archive. cbn [negb].
  destruct (filter isfile archive) as [|e files] eqn:F; [discriminate|].
  intros _. destruct (filter_first _ _ _ _ F) as (sk & rest & E & Hsk & He).
  eauto 6.
Qed.

(** The call of the splitter in [main] returns an outcome. *)
Lemma main_call args env l is_archive lo_file up_file buffer_size :
  main_prepare args env = (l, Done (is_archive, lo_file, up_file, buffer_size)) ->
  exists o,
    (if is_archive then
       process_archive (libarchive_available env) (input_archive env)
         (arg_big_endian args) (arg_odd_byte args) buffer_size
     else
       ret (split_file (input_contents env) (arg_big_endian args)
                       (arg_odd_byte args) buffer_size))
    = ([], Done (Some o)).
Proof.
  intros H. apply main_prepare_done in H as (-> & _ & _ & Ha).
  destruct is_archive.
  - destruct (Ha eq_refl) as (Av & l0 & n & Hg). rewrite Av.
    destruct (get_first_file_done _ _ _ Hg) as (sk & e & rest & -> & Hsk & He).
    destruct (archive_same_as_plain sk e rest (arg_big_endian args) (arg_odd_byte args)
                (len (input_contents env)) Hsk He) as (o & _ & Ho).
    eauto.
  - unfold ret, split_file.
    rewrite split_file_from_stream_final by apply buffer_size_for_bounds.
    eauto.
Qed.

Ltac not_archive_exit_line :=
  let t := fresh "t" in
  intros t [<-|[<-|[]]]; cbn; discriminate.

Ltac not_archive_exit_lines :=
  cbn; repeat (constructor; [not_archive_exit_line|]); constructor.

Lemma bind_Forall {A B : Type} (P : Line -> Prop)
  (m : Script A) (k : A -> Script B) :
  Forall P (fst m) ->
  (forall a, Forall P (fst (k a))) ->
  Forall P (fst (bind m k)).
Proof.
  intros Hm Hk. unfold bind. destruct m as [l [a|c]]; [|exact Hm].
  specialize (Hk a). destruct (k a) as [l' r]. cbn in *.
  apply Forall_app. auto.
Qed.

Lemma check_input_file_quiet f e i n :
  Forall not_archive_exit (fst (check_input_file f e i n)).
Proof.
  unfold check_input_file.
  destruct e, i, (n =? 0); not_archive_exit_lines.
Qed.

Lemma check_output_files_quiet lo up le ue force tty resp :
  Forall not_archive_exit
         (fst (check_output_files lo up le ue force tty resp)).
Proof.
  unfold check_output_files.
  destruct (le || ue), force, tty; try not_archive_exit_lines.
  all: destruct resp as [[|c r]|]; try not_archive_exit_lines.
  all: destruct (lower_char c =? "y")%char; not_archive_exit_lines.
Qed.

Lemma get_first_file_quiet archive :
  Forall not_archive_exit
         (fst (get_first_file_from_archive true archive)).
Proof.
  unfold get_first_file_from_archive. cbn [negb].
  destruct (map name (filter isfile archive)) as [|first others] eqn:E;
    [not_archive_exit_lines|].
  apply bind_Forall; [|intros; constructor].
  destruct (1 <? _); [|constructor].
  apply bind_Forall; [not_archive_exit_lines | intros _].
  apply bind_Forall; [|intros _].
  - cbn [fst]. apply Forall_forall. intros x Hx.
    apply in_map_iff in Hx as (f & <- & _). not_archive_exit_line.
  - apply bind_Forall; [|intros _]; not_archive_exit_lines.
Qed.

Lemma main_prepare_quiet args env :
  Forall not_archive_exit (fst (main_prepare args env)).
Proof.
  unfold main_prepare.
  destruct (input_exists env); cbn [negb]; [|not_archive_exit_lines].
  destruct (input_is_file env); cbn [negb]; [|not_archive_exit_lines].
  apply bind_Forall.
  - destruct (existsb _ _).
    + destruct (libarchive_available env); cbn [negb];
        [|not_archive_exit_lines].
      apply bind_Forall; [apply get_first_file_quiet | intros; constructor].
    + apply bind_Forall; [apply check_input_file_quiet|intros; constructor].
  - intros [lo up]. apply bind_Forall;
      [apply check_output_files_quiet|].
    intros []; cbn; constructor.
Qed.

Lemma handle_remainder_quiet act s :
  Forall not_archive_exit (map Err (stderr (handle_remainder act s))).
Proof.
  unfold handle_remainder. destruct (remainder s) as [|b r];
    [constructor|].
  destruct (act =? "error")%string; [not_archive_exit_lines|].
  destruct (act =? "skip")%string; [not_archive_exit_lines|].
  destruct (act =? "lower")%string; [not_archive_exit_lines|].
  destruct (act =? "upper")%string; not_archive_exit_lines.
Qed.

Lemma summary_quiet args lo up ls us n h v :
  Forall not_archive_exit (summary args lo up ls us n h v).
Proof.
  unfold summary.
  apply Forall_app; split; [destruct (_ && _); not_archive_exit_lines|].
  apply Forall_app; split; [not_archive_exit_lines|].
  apply Forall_app; split; [destruct h|]; not_archive_exit_lines.
Qed.

(** The outcome the call of the splitter in [main] returns comes from the
    code after the loop. *)
Lemma main_call_outcome args env l is_archive lo_file up_file buffer_size :
  main_prepare args env = (l, Done (is_archive, lo_file, up_file, buffer_size)) ->
  exists input,
    (if is_archive then
       process_archive (libarchive_available env) (input_archive env)
         (arg_big_endian args) (arg_odd_byte args) buffer_size
     else
       ret (split_file (input_contents env) (arg_big_endian args)
                       (arg_odd_byte args) buffer_size))
    = ([], Done (Some (handle_remainder (arg_odd_byte args)
                         (final (arg_big_endian args) input)))).
Proof.
  intros H. apply main_prepare_done in H as (-> & _ & _ & Ha).
  destruct is_archive.
  - destruct (Ha eq_refl) as (Av & l0 & n & Hg). rewrite Av.
    destruct (get_first_file_done _ _ _ Hg) as (sk & e & rest & -> & Hsk & He).
    exists (List.concat (get_blocks e)).
    unfold process_archive. cbn [negb].
    rewrite (process_entries_skipped _ _ _ _ _ _ Hsk He).
    rewrite split_file_from_stream_final by apply buffer_size_for_bounds.
    reflexivity.
  - exists (input_contents env). unfold ret, split_file.
    rewrite split_file_from_stream_final by apply buffer_size_for_bounds.
    reflexivity.
Qed.

(** X14. [main] never takes either [sys.exit(1)] path of [process_archive]:
    it calls the function only when [libarchive] is available and
    [get_first_file_from_archive] has found a file, so neither
    "Error: libarchive not available - archive support disabled" nor
    "Error: Failed to extract file from archive" is among the lines a run
    of [main] prints. *)
Theorem X14_archive_exits_unreachable args env run :
  main args env = Some run ->
  forall t, In t archive_exit_lines -> ~ In (Err t) (lines run).
Proof.
  intros Hmain.
  assert (Hq : Forall not_archive_exit (lines run)).
  { revert Hmain. unfold main.
    pose proof (main_prepare_quiet args env) as Hp.
    destruct (main_prepare args env) as [l [[[[a lo] up] bs]|c]] eqn:P;
      cbn [fst] in Hp.
    - destruct (main_call_outcome _ _ _ _ _ _ _ P) as (input & Hc).
      cbv zeta. rewrite Hc.
      pose proof (handle_remainder_quiet (arg_odd_byte args)
                    (final (arg_big_endian args) input)) as Hh.
      destruct (result _); intros [= <-]; cbn [lines app].
      + apply Forall_app; split; [|apply summary_quiet].
        apply Forall_app; split; [exact Hp | exact Hh].
      + apply Forall_app; split; [exact Hp | exact Hh].
    - intros [= <-]. exact Hp. }
  intros t Ht Hin. rewrite Forall_forall in Hq.
  exact (Hq _ Hin t Ht eq_refl).
Qed.

Lemma X14_archive_exits_unreachable_witness :
  exists run,
    main (mkArgs true false "skip")
         (archive_env [mkEntry "docs" false [];
                       mkEntry "rom.bin" true [[x01]; [x02; x03]]])
    = Some run
    /\ files run = Some ([x02], [x01])
    /\ ~ In (Err "Error: Failed to extract file from archive") (lines run).
Proof.
  assert (H : main (mkArgs true false "skip")
                (archive_env [mkEntry "docs" false [];
                              mkEntry "rom.bin" true [[x01]; [x02; x03]]])
              = Some (mkRun
                        [Err "Warning: File has odd number of bytes. Last byte 0x03 will be skipped.";
                         Out "File split successfully:";
                         Out "  Lower bytes: 'rom.lower.bin' (1 bytes)";
                         Out "  Upper bytes: 'rom.upper.bin' (1 bytes)";
                         Out "  Complete word pairs: 1";
                         Out "  Byte order: big-endian (Motorola 68000)"]
                        (Some ([x02], [x01])) None))
    by reflexivity.
  eexists. split; [exact H|]. split; [reflexivity|].
  apply (X14_archive_exits_unreachable _ _ _ H).
  right. left. reflexivity.
Defined.

(** X15. [main] does not overwrite without consent: in a run that opened
    the output files, the checks of [main] had gone through and, for the
    very two names they hand to the splitter, neither file existed, or
    [--force] was given, or the question was asked at a terminal and the
    answer was empty or began with [y] or [Y]; when the run returns, these
    are the names its summary reports. *)
Theorem X15_main_overwrite_needs_consent args env run :
  main args env = Some run ->
  files run <> None ->
  exists l is_archive lo_file up_file buffer_size,
    main_prepare args env
    = (l, Done (is_archive, lo_file, up_file, buffer_size))
    /\ (output_exists env lo_file || output_exists env up_file = false
        \/ arg_force args = true
        \/ (stdin_isatty env = true
            /\ exists r, stdin_response env = Some r
                 /\ (r = EmptyString
                     \/ exists c r', r = String c r'
                          /\ (c = "y"%char \/ c = "Y"%char))))
    /\ (forall lo up,
          files run = Some (lo, up) -> exit_code run = None ->
          In (Out ("  Lower bytes: '" ++ lo_file ++ "' ("
                     ++ str_int (len lo) ++ " bytes)")) (lines run)
          /\ In (Out ("  Upper bytes: '" ++ up_file ++ "' ("
                        ++ str_int (len up) ++ " bytes)")) (lines run)).
Proof.
  unfold main.
  destruct (main_prepare args env) as [l [[[[a lo] up] bs]|c]] eqn:P.
  - destruct (main_call _ _ _ _ _ _ _ P) as (o & Hc).
    cbv zeta. rewrite Hc.
    pose proof (main_prepare_done _ _ _ _ _ _ _ P) as (_ & Hok & _ & _).
    apply check_output_files_true in Hok.
    destruct (result o) as [n h v|c]; intros [= <-] _;
      exists l, a, lo, up, bs; (split; [reflexivity|]);
      (split; [exact Hok|]); cbn [files exit_code lines];
      intros lo' up' [= <- <-] Hex; [|discriminate Hex].
    split; apply in_or_app; right; unfold summary;
      apply in_or_app; right; cbn [app In]; auto.
  - intros [= <-] H. now contradiction H.
Qed.

Lemma X15_main_overwrite_needs_consent_witness :
  exists run,
    main (mkArgs true true "error") (plain_env [x12; x34] true) = Some run
    /\ files run <> None
    /\ arg_force (mkArgs true true "error") = true.
Proof.
  assert (H : main (mkArgs true true "error") (plain_env [x12; x34] true)
              = Some (mkRun
                        [Out "File split successfully:";
                         Out "  Lower bytes: 'rom.lower.bin' (1 bytes)";
                         Out "  Upper bytes: 'rom.upper.bin' (1 bytes)";
                         Out "  Complete word pairs: 1";
                         Out "  Byte order: big-endian (Motorola 68000)"]
                        (Some ([x34], [x12])) None))
    by reflexivity.
  destruct (X15_main_overwrite_needs_consent _ _ _ H)
    as (l & a & lo & up & bs & _ & _ & _); [discriminate|].
  eexists. split; [exact H|]. split; [discriminate | reflexivity].
Defined.

Lemma summary_success args lo up ls us n h v :
  In (Out "File split successfully:") (summary args lo up ls us n h v).
Proof.
  unfold summary. apply in_or_app. right. left. reflexivity.
Qed.

Lemma no_out_not_in l t : Forall not_out l -> ~ In (Out t) l.
Proof.
  intros H Hin. rewrite Forall_forall in H. exact (H _ Hin).
Qed.

(** X16. The success line tells the truth: [main] prints
    "File split successfully:" exactly in the runs in which it returns
    without [sys.exit], and in those runs both output files have been
    written. *)
Theorem X16_success_line args env run :
  main args env = Some run ->
  (In (Out "File split successfully:") (lines run) <-> exit_code run = None)
  /\ (exit_code run = None -> files run <> None).
Proof.
  unfold main.
  pose proof (main_prepare_no_out args env) as Hno.
  destruct (main_prepare args env) as [l [[[[a lo] up] bs]|c]] eqn:P;
    cbn [fst] in Hno.
  - destruct (main_call _ _ _ _ _ _ _ P) as (o & Hc).
    cbv zeta. rewrite Hc. destruct (result o) as [n h v|c]; intros [= <-];
      cbn [lines exit_code files].
    + split; [|discriminate]. split; [reflexivity|]. intros _.
      apply in_or_app. right. apply summary_success.
    + split; [|discriminate]. split; [|discriminate]. intros Hin.
      exfalso. revert Hin. apply no_out_not_in.
      apply Forall_app. split; [exact Hno|]. cbn [app].
      apply Forall_forall. intros x Hx.
      apply in_map_iff in Hx as (t & <- & _). exact I.
  - intros [= <-]. cbn [lines exit_code files].
    split; [|discriminate]. split; [|discriminate]. intros Hin.
    exfalso. revert Hin. now apply no_out_not_in.
Qed.

Lemma X16_success_line_witness :
  exists run,
    main (mkArgs true false "error") (plain_env [x12; x34; x56] false)
    = Some run
    /\ (In (Out "File split successfully:") (lines run)
        <-> exit_code run = None)
    /\ exit_code run = Some 1.
Proof.
  assert (H : main (mkArgs true false "error")
                   (plain_env [x12; x34; x56] false)
              = Some (mkRun
                        [Err "Error: File has odd number of bytes. Last byte: 0x56";
                         Err "Use --odd-byte to specify handling (skip, lower, upper)"]
                        (Some ([x34], [x12])) (Some 1)))
    by reflexivity.
  eexists. split; [exact H|]. split; [|reflexivity].
  apply (X16_success_line _ _ _ H).
Defined.

(** X17. An empty plain file is not an error: when no output file exists
    yet, [main] warns that the file is empty and that no data was written,
    creates both output files empty, prints the summary with sizes and
    count 0, and returns without [sys.exit]. *)
Theorem X17_empty_plain_file args env lo_file up_file :
  input_exists env = true ->
  input_is_file env = true ->
  existsb (String.eqb (input_suffix env)) ALL_ARCHIVE_EXTENSIONS = false ->
  input_contents env = [] ->
  output_names env None = (lo_file, up_file) ->
  output_exists env lo_file = false ->
  output_exists env up_file = false ->
  main args env
  = Some (mkRun
            [Err ("Warning: File '" ++ input_path env ++ "' is empty!");
             Err "Warning: No data was written (input file may be empty or too small).";
             Out "File split successfully:";
             Out ("  Lower bytes: '" ++ lo_file ++ "' (0 bytes)");
             Out ("  Upper bytes: '" ++ up_file ++ "' (0 bytes)");
             Out "  Complete word pairs: 0";
             Out ("  Byte order: "
                    ++ if arg_big_endian args
                       then "big-endian (Motorola 68000)"
                       else "little-endian")]
            (Some ([], [])) None).
Proof.
  intros He Hf Hx Hc Hn Hlo Hup.
  unfold main, main_prepare.
  rewrite He, Hf, Hx, Hc. cbn [negb].
  unfold check_input_file. cbn. rewrite Hn. cbn.
  unfold check_output_files. rewrite Hlo, Hup. cbn.
  unfold split_file.
  rewrite split_file_from_stream_final by lia.
  rewrite handle_remainder_none by reflexivity.
  unfold summary. cbn.
  destruct (arg_big_endian args); reflexivity.
Qed.

Lemma X17_empty_plain_file_witness :
  exists run,
    main (mkArgs false false "error") (plain_env [] false) = Some run
    /\ files run = Some ([], []) /\ exit_code run = None.
Proof.
  eexists. split; [|split];
    [apply (X17_empty_plain_file (mkArgs false false "error")
              (plain_env [] false) "rom.lower.bin" "rom.upper.bin");
     reflexivity
    | reflexivity | reflexivity].
Defined.

(** X18. A refused overwrite is not a failure for the shell: on a plain
    file, when an output file exists, [--force] is not given and standard
    input is not a terminal, [main] prints the two error lines, opens no
    output file and ends in [sys.exit(0)]. *)
Theorem X18_refusal_exits_zero args env lo_file up_file :
  input_exists env = true ->
  input_is_file env = true ->
  existsb (String.eqb (input_suffix env)) ALL_ARCHIVE_EXTENSIONS = false ->
  output_names env None = (lo_file, up_file) ->
  output_exists env lo_file || output_exists env up_file = true ->
  arg_force args = false ->
  stdin_isatty env = false ->
  exists l before,
    main args env = Some (mkRun l None (Some 0))
    /\ l = before
           ++ [Err ("Error: Output file(s) already exist: "
                      ++ String.concat ", "
                           ((if output_exists env lo_file
                             then [lo_file] else [])
                              ++ (if output_exists env up_file
                                  then [up_file] else [])));
               Err "Use --force to overwrite existing files"].
Proof.
  intros He Hf Hx Hn Hex Hforce Htty.
  unfold main, main_prepare.
  rewrite He, Hf, Hx. cbn [negb].
  unfold check_input_file. cbn [negb].
  destruct (len (input_contents env) =? 0); cbn; rewrite Hn; cbn;
    unfold check_output_files; rewrite Hex, Hforce, Htty; cbn;
    eexists; [exists [Err ("Warning: File '" ++ input_path env
                            ++ "' is empty!")%string]
             | exists []];
    (split; reflexivity).
Qed.

Lemma X18_refusal_exits_zero_witness :
  exists l,
    main (mkArgs true false "skip") (plain_env [x01; x02] true)
    = Some (mkRun l None (Some 0)).
Proof.
  destruct (X18_refusal_exits_zero (mkArgs true false "skip")
              (plain_env [x01; x02] true) "rom.lower.bin" "rom.upper.bin")
    as (l & before & H & _); try reflexivity.
  exists l. exact H.
Defined.

(** X19. The odd byte in the messages: [format_02x] writes a byte as
    exactly two lowercase hexadecimal digits, and these read back as the
    value of the byte. *)
Theorem X19_hex_reads_back b :
  exists hi lo,
    format_02x (int_of_byte b) = String hi (String lo EmptyString)
    /\ 0 <= hex_value hi < 16 /\ 0 <= hex_value lo < 16
    /\ 16 * hex_value hi + hex_value lo = int_of_byte b.
Proof.
  destruct b; do 2 eexists; (split; [reflexivity|]);
    repeat split; vm_compute; (reflexivity || discriminate).
Qed.
